(** * music_api: validation, reference checks and pagination of the route handlers

    A shallow embedding of the Express route modules of the repository
    (routes/artists.js, routes/albums.js, routes/songs.js and
    routes/playlists.js) together with the part of the MongoDB driver and of
    the JavaScript runtime they call, followed by the properties of the
    specification that concern them.

    Conventions of the embedding:
    - JavaScript values are the type [value]; numbers are the integers
      (fractions, infinities and the sign of zero are not represented), NaN
      is a value of its own, strings are sequences of 8-bit characters, on
      which [trim], [toLowerCase] and [slen] are those of JavaScript when
      the characters are ASCII ([ascii_string]);
    - [toString] and [parseInt] give the results of the conversions that
      are defined; a conversion that raises a TypeError, on an object of
      the request that carries a [toString] property of its own, is told
      apart by [stringifiable], and [converts] says that none of the
      conversions of a create handler raises;
    - a handler is a function from the request and the database to a
      response and the database after the request; [return res...] inside
      a handler is [Reply], an exception is [Throw] and the handler's
      [catch] turns it into the 500 response;
    - what the code imports from outside the repository and what is too
      large to embed (regular expressions, [new URL], [Date] parsing, the
      store's sort order) is the class [Host]; a small instance of it,
      [frag_host], evaluates the handlers on concrete requests. *)

From Stdlib Require Import ZArith List String Ascii Bool Lia Arith DecimalString.
From Stdlib Require Import Permutation Sorted.
Import ListNotations.
Open Scope string_scope.
Open Scope Z_scope.
Open Scope list_scope.

Set Implicit Arguments.
Set Warnings "-register-all".

(** ** JavaScript values and the primitives the handlers use *)

Inductive value : Type :=
| JUndefined
| JNull
| JBool (b : bool)
| JNum (z : Z)
| JNaN
| JStr (s : string)
| JArr (l : list value)
| JObj (fields : list (string * value)).

(** A JavaScript number as [parseInt] returns it: an integer or NaN. *)
Inductive number : Type :=
| Int (z : Z)
| NotANumber.

Definition num_value (n : number) : value :=
  match n with Int z => JNum z | NotANumber => JNaN end.

(** ToBoolean. *)
Definition truthy (v : value) : bool :=
  match v with
  | JUndefined | JNull | JNaN => false
  | JBool b => b
  | JNum z => negb (z =? 0)
  | JStr s => negb (s =? "")%string
  | JArr _ | JObj _ => true
  end.

Definition num_truthy (n : number) : bool := truthy (num_value n).


Definition is_array (v : value) : bool :=
  match v with JArr _ => true | _ => false end.

(** [typeof v === 'object'] *)
Definition typeof_object (v : value) : bool :=
  match v with JNull | JArr _ | JObj _ => true | _ => false end.

(** Property lookup [o.k] on the fields of an object literal or of a parsed
    JSON object; a missing property reads as [undefined]. *)
Fixpoint get (k : string) (o : list (string * value)) : value :=
  match o with
  | [] => JUndefined
  | (k', v) :: o' => if (k =? k')%string then v else get k o'
  end.

Definition string_of_Z (z : Z) : string := NilZero.string_of_int (Z.to_int z).

Fixpoint join (sep : string) (l : list string) : string :=
  match l with
  | [] => ""
  | [s] => s
  | s :: l' => (s ++ sep ++ join sep l')%string
  end.

(** [v.toString()] for a value that is neither [null] nor [undefined]
    (the call sites guard it with [?.] or reach it only on such values);
    an array joins the strings of its elements with commas, [null] and
    [undefined] elements print as the empty string. *)
Fixpoint toString (v : value) : string :=
  match v with
  | JUndefined => "undefined"
  | JNull => "null"
  | JBool true => "true"
  | JBool false => "false"
  | JNum z => string_of_Z z
  | JNaN => "NaN"
  | JStr s => s
  | JArr l =>
      join "," (map (fun e => match e with
                              | JUndefined | JNull => ""
                              | _ => toString e
                              end) l)
  | JObj _ => "[object Object]"
  end.

(** The conversion of [v] to a string is defined.  In a parsed JSON body no
    property is callable: on an object that carries a [toString] property
    of its own, [v.toString()], and with it [parseInt(v)] and the join of
    an array that holds [v], raises a TypeError.  [toString] above gives
    the result of the conversions that are defined. *)
Fixpoint stringifiable (v : value) : bool :=
  match v with
  | JArr l => forallb stringifiable l
  | JObj o => negb (existsb (fun kv => (fst kv =? "toString")%string) o)
  | _ => true
  end.

Definition is_ws (c : ascii) : bool :=
  let n := N_of_ascii c in
  ((9 <=? n) && (n <=? 13) || (n =? 32))%N.

Fixpoint trim_left (s : string) : string :=
  match s with
  | String c r => if is_ws c then trim_left r else s
  | EmptyString => EmptyString
  end.

Fixpoint trim_right (s : string) : string :=
  match s with
  | EmptyString => EmptyString
  | String c r =>
      let r' := trim_right r in
      if is_ws c && (r' =? "")%string then EmptyString else String c r'
  end.

(** [String.prototype.trim] *)
Definition trim (s : string) : string := trim_right (trim_left s).

Definition lower_ascii (c : ascii) : ascii :=
  let n := N_of_ascii c in
  if ((65 <=? n) && (n <=? 90))%N then ascii_of_N (n + 32) else c.

(** [String.prototype.toLowerCase] *)
Fixpoint toLowerCase (s : string) : string :=
  match s with
  | EmptyString => EmptyString
  | String c r => String (lower_ascii c) (toLowerCase r)
  end.

Definition slen (s : string) : Z := Z.of_nat (String.length s).

(** [x?.toString().trim()] : [undefined] when [x] is [null] or [undefined]. *)
Definition opt_toString_trim (v : value) : value :=
  match v with
  | JUndefined | JNull => JUndefined
  | _ => JStr (trim (toString v))
  end.

(** [a || b] on values. *)
Definition or_else (a b : value) : value := if truthy a then a else b.

(** *** parseInt *)

Definition digit_of (c : ascii) : option Z :=
  let n := N_of_ascii c in
  if ((48 <=? n) && (n <=? 57))%N then Some (Z.of_N n - 48)
  else if ((97 <=? n) && (n <=? 102))%N then Some (Z.of_N n - 87)
  else if ((65 <=? n) && (n <=? 70))%N then Some (Z.of_N n - 55)
  else None.

(** The longest prefix of digits in radix [r], read as a number; [None] when
    the prefix is empty. *)
Fixpoint digits_prefix (r : Z) (acc : option Z) (s : string) : option Z :=
  match s with
  | EmptyString => acc
  | String c rest =>
      match digit_of c with
      | Some d =>
          if d <? r
          then digits_prefix r (Some (match acc with Some a => a * r + d | None => d end)) rest
          else acc
      | None => acc
      end
  end.

Definition strip_sign (s : string) : Z * string :=
  match s with
  | String "-"%char r => (-1, r)
  | String "+"%char r => (1, r)
  | _ => (1, s)
  end.

Definition parseInt_string (s : string) : number :=
  let '(sign, s1) := strip_sign (trim_left s) in
  let '(radix, s2) :=
    match s1 with
    | String "0"%char (String "x"%char r) => (16, r)
    | String "0"%char (String "X"%char r) => (16, r)
    | _ => (10, s1)
    end in
  match digits_prefix radix None s2 with
  | Some n => Int (sign * n)
  | None => NotANumber
  end.

(** [parseInt(v)] with no radix: the argument is converted to a string and
    its leading integer is read; an integer number prints as its decimal
    digits and reads back as itself. *)
Definition parseInt (v : value) : number :=
  match v with
  | JNum z => Int z
  | JNaN => NotANumber
  | _ => parseInt_string (toString v)
  end.

(** [parseInt(v) || d] *)
Definition parseInt_or (v : value) (d : Z) : Z :=
  match parseInt v with
  | Int z => if z =? 0 then d else z
  | NotANumber => d
  end.

(** [Math.ceil(a / b)] for integers [a] and [b <> 0]: the quotient is
    rounded towards plus infinity. *)
Definition ceil_div (a b : Z) : Z := - ((- a) / b).

(** ** Identifiers: [ObjectId] of the bson package

    An identifier is twelve bytes; it is represented by the 24 lower-case
    hexadecimal digits that [toString] and [toHexString] print. *)

Definition ObjectId := string.

Definition is_hex (c : ascii) : bool :=
  match digit_of c with Some _ => true | None => false end.

Fixpoint all_hex (s : string) : bool :=
  match s with
  | EmptyString => true
  | String c r => is_hex c && all_hex r
  end.

Definition hex24 (s : string) : bool :=
  (String.length s =? 24)%nat && all_hex s.

(** [ObjectId.isValid(v)]: [new ObjectId(v)] does not throw.  It takes a
    string of 24 hexadecimal digits of either case, and an object whose
    [id] property is such a string (the constructor reads the digits from
    [v.id]); it refuses numbers, arrays and every other value.  (Releases
    of the package before version 6 also take any string of twelve
    characters for the twelve bytes; the model follows the current
    release.) *)
Definition ObjectId_isValid (v : value) : bool :=
  match v with
  | JStr s => hex24 s
  | JObj o => match get "id" o with JStr s => hex24 s | _ => false end
  | _ => false
  end.

(** [new ObjectId(v)] on a valid [v]: the identifier that the digits of the
    string, or of the [id] property, denote; [None] stands for an
    identifier that no stored document carries. *)
Definition ObjectId_new (v : value) : option ObjectId :=
  match v with
  | JStr s => if hex24 s then Some (toLowerCase s) else None
  | JObj o =>
      match get "id" o with
      | JStr s => if hex24 s then Some (toLowerCase s) else None
      | _ => None
      end
  | _ => None
  end.

(** [s.includes(t)] on strings. *)
Fixpoint includes_string (t s : string) : bool :=
  String.prefix t s ||
  match s with
  | EmptyString => false
  | String _ r => includes_string t r
  end.

(** ** What the handlers take from their host

    The JavaScript engine's regular expressions, URL and date parsers, and
    the store's comparison order are not part of the repository.  The
    handlers are written over this interface; the properties that hold for
    every request are proved for every host. *)

Class Host : Type := {
  (** a compiled regular expression *)
  regexp : Type;
  (** [new RegExp(source, 'i')]; [None] when the constructor throws a
      SyntaxError *)
  RegExp_new : string -> option regexp;
  (** [re.test(s)], also the store's match of a string against [re] *)
  RegExp_test : regexp -> string -> bool;
  (** [new URL(s)] does not throw *)
  URL_parses : string -> bool;
  (** [new Date(s).getTime()]; [None] for an invalid date *)
  Date_parse : string -> option Z;
  (** the store's order on field values, used by [sort] *)
  bson_compare : value -> value -> comparison
}.

(** ** The document store *)

Record document : Type := { _id : ObjectId; doc_fields : list (string * value) }.

Definition collection := list document.

Record database : Type := {
  artists : collection;
  albums : collection;
  songs : collection;
  playlists : collection
}.

Definition set_artists (db : database) (c : collection) : database :=
  {| artists := c; albums := albums db; songs := songs db; playlists := playlists db |}.
Definition set_albums (db : database) (c : collection) : database :=
  {| artists := artists db; albums := c; songs := songs db; playlists := playlists db |}.
Definition set_songs (db : database) (c : collection) : database :=
  {| artists := artists db; albums := albums db; songs := c; playlists := playlists db |}.
Definition set_playlists (db : database) (c : collection) : database :=
  {| artists := artists db; albums := albums db; songs := songs db; playlists := c |}.

(** A document as the JSON of a response shows it. *)
Definition doc_json (d : document) : value :=
  JObj (("_id", JStr (_id d)) :: doc_fields d).

(** Equality of the scalars the handlers put in queries. *)
Definition scalar_eqb (a b : value) : bool :=
  match a, b with
  | JStr s, JStr t => (s =? t)%string
  | JNum x, JNum y => x =? y
  | JBool x, JBool y => Bool.eqb x y
  | JNull, JNull => true
  | _, _ => false
  end.

(** Equality of a stored field value with the value of a query: scalars
    as above; an embedded document or an array is equal to one with the
    same entries in the same order. *)
Fixpoint field_eqb (a b : value) : bool :=
  match a, b with
  | JArr l1, JArr l2 =>
      (fix all2 (l1 l2 : list value) : bool :=
         match l1, l2 with
         | [], [] => true
         | x :: r1, y :: r2 => field_eqb x y && all2 r1 r2
         | _, _ => false
         end) l1 l2
  | JObj o1, JObj o2 =>
      (fix all2 (o1 o2 : list (string * value)) : bool :=
         match o1, o2 with
         | [], [] => true
         | (k1, x) :: r1, (k2, y) :: r2 =>
             (k1 =? k2)%string && field_eqb x y && all2 r1 r2
         | _, _ => false
         end) o1 o2
  | _, _ => scalar_eqb a b
  end.

Definition value_leb (a b : value) : bool :=
  match a, b with
  | JNum x, JNum y => x <=? y
  | JStr s, JStr t => String.leb s t
  | _, _ => false
  end.

Section Store.
Context {H : Host}.

(** The conditions on a field that the handlers build. *)
Inductive cond : Type :=
| Matches (r : regexp)               (* field: /r/i *)
| Equals (v : value)                 (* field: v *)
| Between (lo hi : option value).    (* field: { $gte: lo, $lte: hi } *)

Definition filter := list (string * cond).

Definition matches_regexp (r : regexp) (v : value) : bool :=
  match v with
  | JStr s => RegExp_test r s
  | JArr l => existsb (fun e => match e with JStr s => RegExp_test r s | _ => false end) l
  | _ => false
  end.

Definition matches_cond (c : cond) (v : value) : bool :=
  match c with
  | Matches r => matches_regexp r v
  | Equals x =>
      field_eqb x v || match v with JArr l => existsb (field_eqb x) l | _ => false end
  | Between None None =>
      match v with JObj [] => true | _ => false end
  | Between lo hi =>
      match lo with Some a => value_leb a v | None => true end &&
      match hi with Some b => value_leb v b | None => true end
  end.

Definition matches (f : filter) (d : document) : bool :=
  forallb (fun fc => matches_cond (snd fc) (get (fst fc) (doc_fields d))) f.

(** [collection.find(f).toArray()] in the collection's natural order. *)
Definition find (c : collection) (f : filter) : list document :=
  List.filter (matches f) c.

Definition findOne (c : collection) (f : filter) : option document :=
  hd_error (find c f).

Definition countDocuments (c : collection) (f : filter) : Z :=
  Z.of_nat (List.length (find c f)).

(** [sort: { field: order }], a stable insertion sort. *)
Definition before (field : string) (order : Z) (a b : document) : bool :=
  match bson_compare (get field (doc_fields a)) (get field (doc_fields b)) with
  | Eq => true
  | Lt => 0 <? order
  | Gt => order <? 0
  end.

Fixpoint insert_sorted (field : string) (order : Z) (d : document) (l : list document)
  : list document :=
  match l with
  | [] => [d]
  | x :: l' =>
      if before field order x d then x :: insert_sorted field order d l'
      else d :: l
  end.

Definition sort_docs (s : option (string * Z)) (l : list document) : list document :=
  match s with
  | None => l
  | Some (field, order) => fold_left (fun acc d => insert_sorted field order d acc) l []
  end.

(** [collection.find(f, { skip, limit, sort }).toArray()].  The server
    refuses a negative skip, and the await throws ([None]); the driver
    sends a negative limit as its absolute value, and a limit of zero
    means no limit. *)
Definition find_page (c : collection) (f : filter) (skip limit : Z)
           (s : option (string * Z)) : option (list document) :=
  if skip <? 0 then None
  else
    let rest := skipn (Z.to_nat skip) (sort_docs s (find c f)) in
    Some (if limit =? 0 then rest else firstn (Z.to_nat (Z.abs limit)) rest).

End Store.

(** [findOne({ _id: new ObjectId(v) })] *)
Definition has_id (o : option ObjectId) (d : document) : bool :=
  match o with
  | Some i => (_id d =? i)%string
  | None => false
  end.

Definition findById (c : collection) (o : option ObjectId) : option document :=
  List.find (has_id o) c.

(** [find({ _id: { $in: ids } }).toArray()] *)
Definition find_in (c : collection) (ids : list (option ObjectId)) : list document :=
  List.filter (fun d => existsb (fun o => has_id o d) ids) c.

(** [insertOne]: the new document goes last in natural order. *)
Definition insertOne (c : collection) (d : document) : collection := c ++ [d].

(** [$set] of one field. *)
Fixpoint set_field (k : string) (v : value) (o : list (string * value))
  : list (string * value) :=
  match o with
  | [] => [(k, v)]
  | (k', v') :: o' =>
      if (k =? k')%string then (k, v) :: o' else (k', v') :: set_field k v o'
  end.

Definition set_fields (upd o : list (string * value)) : list (string * value) :=
  fold_left (fun acc kv => set_field (fst kv) (snd kv) acc) upd o.

(** [updateOne({ _id }, u)] where [u] rewrites the fields of the first
    document carrying the identifier; [None] when the update operator
    cannot be applied and the store reports an error.  The second
    component is [matchedCount]. *)
Fixpoint updateOne (c : collection) (o : option ObjectId)
         (u : list (string * value) -> option (list (string * value)))
  : option (collection * Z) :=
  match c with
  | [] => Some ([], 0)
  | d :: c' =>
      if has_id o d then
        match u (doc_fields d) with
        | Some fs => Some ({| _id := _id d; doc_fields := fs |} :: c', 1)
        | None => None
        end
      else
        match updateOne c' o u with
        | Some (c'', n) => Some (d :: c'', n)
        | None => None
        end
  end.

(** [deleteOne({ _id })]; the second component is [deletedCount]. *)
Fixpoint deleteOne (c : collection) (o : option ObjectId) : collection * Z :=
  match c with
  | [] => ([], 0)
  | d :: c' =>
      if has_id o d then (c', 1)
      else let '(c'', n) := deleteOne c' o in (d :: c'', n)
  end.

(** [{ $set: fields }] *)
Definition op_set (upd : list (string * value)) (o : list (string * value))
  : option (list (string * value)) :=
  Some (set_fields upd o).

(** [{ $pull: { field: x } }]: every element equal to [x] leaves the array;
    a missing field stays missing; any other value is an error. *)
Definition op_pull (field : string) (x : value) (o : list (string * value))
  : option (list (string * value)) :=
  match get field o with
  | JArr l => Some (set_field field (JArr (List.filter (fun e => negb (scalar_eqb x e)) l)) o)
  | JUndefined => Some o
  | _ => None
  end.

(** [{ $push: { field: x } }]: [x] goes last; a missing field becomes the
    one-element array; any other value is an error. *)
Definition op_push (field : string) (x : value) (o : list (string * value))
  : option (list (string * value)) :=
  match get field o with
  | JArr l => Some (set_field field (JArr (l ++ [x])) o)
  | JUndefined => Some (set_field field (JArr [x]) o)
  | _ => None
  end.

Definition and_then {A B : Type} (a : option A) (f : A -> option B) : option B :=
  match a with Some x => f x | None => None end.

(** ** Requests, responses and the control flow of a handler *)

Record response : Type := { status : Z; body : value }.

(** What a handler reads besides the request and the database: the clock
    ([new Date()] in milliseconds and its [getFullYear()]), the identifier
    the driver gives to an inserted document, and what [requireAuth]
    consults. *)
Record env : Type := {
  now : Z;
  current_year : Z;
  fresh_id : ObjectId;
  isDemoMode : bool;
  has_user : bool
}.

(** A point of the handler's body: go on with a value, [return res...],
    or an exception on its way to the [catch]. *)
Inductive step (A : Type) : Type :=
| Next (a : A)
| Reply (r : response)
| Throw.
Arguments Next {A} a.
Arguments Reply {A} r.
Arguments Throw {A}.

Definition bind {A B : Type} (m : step A) (k : A -> step B) : step B :=
  match m with
  | Next a => k a
  | Reply r => Reply r
  | Throw => Throw
  end.

Notation "x <- m ;; k" := (bind m (fun x => k))
  (at level 61, m at next level, right associativity).
Notation "m ;;; k" := (bind m (fun _ => k))
  (at level 61, right associativity).

(** [if (c) return res.status(..).json(..)] *)
Definition reply_if (c : bool) (r : response) : step unit :=
  if c then Reply r else Next tt.

(** An awaited store call that may reject. *)
Definition await {A : Type} (o : option A) : step A :=
  match o with Some a => Next a | None => Throw end.

Definition json (st : Z) (fields : list (string * value)) : response :=
  {| status := st; body := JObj fields |}.

Definition error_json (st : Z) (err msg : string) : response :=
  json st [("error", JStr err); ("message", JStr msg)].

(** The handler's [try { ... } catch (error) { res.status(500)... }]: the body
    ends with a response and the database it leaves; an early return or an
    exception leaves the database as it was. *)
Definition run (db : database) (internal : response)
           (m : step (response * database)) : response * database :=
  match m with
  | Next rd => rd
  | Reply r => (r, db)
  | Throw => (internal, db)
  end.

(** The body of the 500 response; its [details] field is [undefined], and
    so left out of the JSON, unless NODE_ENV is 'development'. *)
Definition internal_error (msg : string) : response :=
  json 500 [("error", JStr "Internal server error"); ("message", JStr msg)].

(** middleware/auth.js, [requireAuth] *)
Definition requireAuth (e : env) (db : database) (h : response * database)
  : response * database :=
  if isDemoMode e then h
  else if negb (has_user e)
       then (error_json 401 "Authentication required" "Please log in to access this resource", db)
       else h.

(** ** Helpers shared by the four route modules

    Each route module of the repository repeats the same checks on its own
    fields; the repeated text is written once here. *)

Definition nonempty {A : Type} (l : list A) : bool :=
  match l with [] => false | _ => true end.

Definition found {A : Type} (o : option A) : bool :=
  match o with Some _ => true | None => false end.

Definition cat (a b : string) : string := (a ++ b)%string.

(** A [Date] value, stored by its milliseconds since the epoch. *)
Definition bson_date (t : Z) : value := JNum t.

(** [if (!v || typeof v !== 'string' || v.trim().length === 0) push(missing)
     else if (v.trim().length > max) push(too_long)] *)
Definition required_string (v : value) (max : Z) (missing too_long : string)
  : list string :=
  match v with
  | JStr s =>
      if negb (truthy v) || (slen (trim s) =? 0) then [missing]
      else if slen (trim s) >? max then [too_long]
      else []
  | _ => [missing]
  end.

(** [if (v && (typeof v !== 'string' || v.length > max)) push(msg)] *)
Definition optional_string (v : value) (max : Z) (msg : string) : list string :=
  if truthy v &&
     match v with JStr s => slen s >? max | _ => true end
  then [msg] else [].

Section Url.
Context {H : Host}.

(** [isValidUrl], defined alike in each route module: [new URL(string)]
    inside a try. *)
Definition isValidUrl (s : string) : bool := URL_parses s.

(** [if (v && (typeof v !== 'string' || !isValidUrl(v))) push(msg)] *)
Definition optional_url (v : value) (msg : string) : list string :=
  if truthy v &&
     match v with JStr s => negb (isValidUrl s) | _ => true end
  then [msg] else [].
End Url.

(** [!n || isNaN(n) || n < 1] on a [parseInt] result. *)
Definition below_one (n : number) : bool :=
  match n with
  | NotANumber => true
  | Int z => (z =? 0) || (z <? 1)
  end.

(** [n > max] on a [parseInt] result (false for NaN). *)
Definition above (n : number) (max : Z) : bool :=
  match n with
  | NotANumber => false
  | Int z => z >? max
  end.

(** [if (!n || isNaN(n) || n < 1) push(missing) else if (n > max) push(too_big)] *)
Definition required_count (n : number) (max : Z) (missing too_big : string)
  : list string :=
  if below_one n then [missing]
  else if above n max then [too_big]
  else [].

(** [if (!v || !ObjectId.isValid(v)) push(msg)] *)
Definition required_id (v : value) (msg : string) : list string :=
  if negb (truthy v) || negb (ObjectId_isValid v) then [msg] else [].

(** [names.indexOf(x)], -1 when absent. *)
Fixpoint indexOf (x : string) (l : list string) : Z :=
  match l with
  | [] => -1
  | y :: l' =>
      if (x =? y)%string then 0
      else let i := indexOf x l' in if i <? 0 then -1 else i + 1
  end.

Fixpoint filter_index {A : Type} (p : A -> Z -> bool) (i : Z) (l : list A) : list A :=
  match l with
  | [] => []
  | x :: l' => if p x i then x :: filter_index p (i + 1) l' else filter_index p (i + 1) l'
  end.

(** [names.filter((item, index) => names.indexOf(item) !== index)] *)
Definition duplicates (names : list string) : list string :=
  filter_index (fun item index => negb (indexOf item names =? index)) 0 names.

(** The loop over the entries of [members] or [tags]: entry [i] is checked
    as a required string and reported under the number [i + 1]. *)
Fixpoint each_entry (what too_long : string) (max : Z) (i : Z) (l : list value)
  : list string :=
  match l with
  | [] => []
  | m :: l' =>
      required_string m max
        (cat what (cat (string_of_Z (i + 1)) " must be a non-empty string"))
        (cat what (cat (string_of_Z (i + 1)) too_long))
      ++ each_entry what too_long max (i + 1) l'
  end.

(** [l.map(m => f(m))] where [f] throws on some entries. *)
Fixpoint map_step {A B : Type} (f : A -> step B) (l : list A) : step (list B) :=
  match l with
  | [] => Next []
  | x :: l' => y <- f x ;; ys <- map_step f l' ;; Next (y :: ys)
  end.

Definition validation_failed (errors : list string) : response :=
  json 400 [("error", JStr "Validation failed");
            ("message", JStr "Please correct the following errors");
            ("details", JArr (map JStr errors))].

Definition invalid_id (what : string) : response :=
  error_json 400 (cat "Invalid " (cat what " ID format"))
             "Please provide a valid MongoDB ObjectId".

Definition invalid_limit : response :=
  error_json 400 "Invalid limit" "Limit cannot exceed 100 items per page".

Definition opt_json (d : option document) : value :=
  match d with Some x => doc_json x | None => JNull end.

Section Listing.
Context {H : Host}.

(** [if (q) query.field = new RegExp(q, 'i')] *)
Definition regexp_filter (field : string) (q : value) : step filter :=
  if truthy q then
    r <- await (RegExp_new (toString q)) ;;
    Next [(field, Matches r)]
  else Next [].

(** [if (q && ObjectId.isValid(q)) query.field = q] *)
Definition id_filter (field : string) (q : value) : filter :=
  if truthy q && ObjectId_isValid q then [(field, Equals q)] else [].

(** The pagination, sorting and response of a listing, the same text in
    the four [router.get('/')] handlers up to the name of the collection
    and the list of sortable fields. *)
Definition paginate (key : string) (c : collection) (sortable : list string)
           (query : list (string * value)) (f : filter) : step response :=
  let page := parseInt_or (get "page" query) 1 in
  let limit := parseInt_or (get "limit" query) 10 in
  reply_if (limit >? 100) invalid_limit ;;;
  let skip := (page - 1) * limit in
  let sort :=
    if truthy (get "sortBy" query) then
      let sortOrder :=
        if scalar_eqb (get "sortOrder" query) (JStr "desc") then -1 else 1 in
      (* [allowed.includes(sortField)]: only a string is in the list *)
      match get "sortBy" query with
      | JStr sortField =>
          if existsb (String.eqb sortField) sortable
          then Some (sortField, sortOrder) else None
      | _ => None
      end
    else None in
  items <- await (find_page c f skip limit sort) ;;
  let totalCount := countDocuments c f in
  Next (json 200
    [(key, JArr (map doc_json items));
     ("pagination", JObj
        [("currentPage", JNum page);
         ("totalPages", JNum (ceil_div totalCount limit));
         ("totalItems", JNum totalCount);
         ("hasNext", JBool (page * limit <? totalCount));
         ("hasPrev", JBool (page >? 1))])]).

(** A handler that only reads. *)
Definition run_read (db : database) (internal : response) (m : step response)
  : response * database :=
  run db internal (r <- m ;; Next (r, db)).
End Listing.

(** ** middleware/auth.js and routes/auth.js: the demo mode

    The module keeps one variable, [isDemoMode], which starts as [false];
    the [isDemoMode] of an [env] is its truth value at the time of the
    request. *)

(** [toggleDemoMode(enable = null)]: the new value of the variable, which is
    also what the function returns.  A missing argument takes the default
    [null]; any other argument is stored as it is. *)
Definition toggleDemoMode (enable : value) (isDemoMode : value) : value :=
  match enable with
  | JUndefined | JNull => JBool (negb (truthy isDemoMode))
  | _ => enable
  end.

(** POST /auth/toggle-demo with the body [b]: the response and the new
    value of the variable. *)
Definition toggle_demo (b : list (string * value)) (isDemoMode : value)
  : response * value :=
  let newState := toggleDemoMode (get "enable" b) isDemoMode in
  (json 200
     [("demoMode", newState);
      ("message", JStr (cat "Demo mode " (if truthy newState then "ENABLED" else "DISABLED")));
      ("instruction",
       JStr (if truthy newState
             then "Protected routes are now accessible without authentication"
             else "Protected routes now require real authentication (will show 401 errors)"))],
   newState).

(** The request environment [e] when the variable holds [s]. *)
Definition in_demo_state (s : value) (e : env) : env :=
  {| now := now e; current_year := current_year e; fresh_id := fresh_id e;
     isDemoMode := truthy s; has_user := has_user e |}.

(** [mockAuth], mounted before every route: in demo mode a request without
    a user is given the demo user. *)
Definition mockAuth (e : env) : env :=
  if isDemoMode e && negb (has_user e)
  then {| now := now e; current_year := current_year e; fresh_id := fresh_id e;
          isDemoMode := isDemoMode e; has_user := true |}
  else e.

(** ** routes/artists.js *)

Module Artists.

(** The object [artistData] that the create and update handlers build and
    [validateArtist] reads. *)
Record data : Type := {
  name : value;
  genre : value;
  country : value;
  formed_year : number;
  members : value;
  biography : value;
  website : value;
  social_media : value
}.

Definition fields_of (a : data) : list (string * value) :=
  [("name", name a); ("genre", genre a); ("country", country a);
   ("formed_year", num_value (formed_year a)); ("members", members a);
   ("biography", biography a); ("website", website a);
   ("social_media", social_media a)].

Section WithHost.
Context {H : Host}.

(** [!y || isNaN(y) || y < 1900 || y > new Date().getFullYear()] *)
Definition bad_formed_year (year : Z) (y : number) : bool :=
  match y with
  | NotANumber => true
  | Int z => (z =? 0) || (z <? 1900) || (z >? year)
  end.

(** [m.trim().toLowerCase()], a TypeError unless [m] is a string. *)
Definition member_name (m : value) : step string :=
  match m with
  | JStr s => Next (toLowerCase (trim s))
  | _ => Throw
  end.

Definition members_errors (ms : value) : step (list string) :=
  match ms with
  | JArr [] => Next ["At least one member is required"]
  | JArr l =>
      let each := each_entry "Member " " name must be less than 100 characters" 100 0 l in
      memberNames <- map_step member_name l ;;
      Next (each ++
            if nonempty (duplicates memberNames)
            then ["Duplicate member names are not allowed"] else [])
  | _ => Next ["At least one member is required"]
  end.

Definition validateArtist (year : Z) (artist : data) : step (list string) :=
  let e_name := required_string (name artist) 100
        "Artist name is required and must be a non-empty string"
        "Artist name must be less than 100 characters" in
  let e_genre := required_string (genre artist) 50
        "Genre is required and must be a non-empty string"
        "Genre must be less than 50 characters" in
  let e_country := required_string (country artist) 50
        "Country is required and must be a non-empty string"
        "Country must be less than 50 characters" in
  let e_year :=
    if bad_formed_year year (formed_year artist)
    then [cat "Valid formed year is required (1900 - " (cat (string_of_Z year) ")")]
    else [] in
  e_members <- members_errors (members artist) ;;
  let e_bio := optional_string (biography artist) 2000
        "Biography must be a string with maximum 2000 characters" in
  let e_web := optional_url (website artist) "Website must be a valid URL" in
  let e_social :=
    if truthy (social_media artist) && negb (typeof_object (social_media artist))
    then ["Social media must be an object"] else [] in
  Next (e_name ++ e_genre ++ e_country ++ e_year ++ e_members
        ++ e_bio ++ e_web ++ e_social).

(** The [query] object of GET /artists. *)
Definition build_query (query : list (string * value)) : step filter :=
  f_genre <- regexp_filter "genre" (get "genre" query) ;;
  f_country <- regexp_filter "country" (get "country" query) ;;
  Next (f_genre ++ f_country).

(** GET /artists *)
Definition listing (db : database) (query : list (string * value))
  : response * database :=
  run_read db (internal_error "Failed to fetch artists")
    (f <- build_query query ;;
     paginate "artists" (artists db)
              ["name"; "genre"; "country"; "formed_year"; "createdAt"]
              query f).

(** The sanitised [artistData] of POST /artists. *)
Definition sanitize (b : list (string * value)) : data :=
  {| name := opt_toString_trim (get "name" b);
     genre := opt_toString_trim (get "genre" b);
     country := opt_toString_trim (get "country" b);
     formed_year := parseInt (get "formed_year" b);
     members :=
       match get "members" b with
       | JArr l => JArr (List.filter truthy (map opt_toString_trim l))
       | _ => JArr []
       end;
     biography := or_else (opt_toString_trim (get "biography" b)) (JStr "");
     website := or_else (opt_toString_trim (get "website" b)) (JStr "");
     social_media :=
       if truthy (get "social_media" b) && typeof_object (get "social_media" b)
       then get "social_media" b else JObj [] |}.

(** POST /artists *)
Definition create (e : env) (db : database) (b : list (string * value))
  : response * database :=
  requireAuth e db
    (run db (internal_error "Failed to create artist")
       (let artistData := sanitize b in
        validationErrors <- validateArtist (current_year e) artistData ;;
        reply_if (nonempty validationErrors) (validation_failed validationErrors) ;;;
        re <- await (RegExp_new (cat "^" (cat (toString (name artistData)) "$"))) ;;
        let existingArtist := findOne (artists db) [("name", Matches re)] in
        reply_if (found existingArtist)
          (error_json 409 "Artist already exists"
             "An artist with this name already exists in the database") ;;;
        let doc := {| _id := fresh_id e;
                      doc_fields := fields_of artistData ++
                        [("createdAt", bson_date (now e));
                         ("updatedAt", bson_date (now e))] |} in
        let db' := set_artists db (insertOne (artists db) doc) in
        let createdArtist := findById (artists db') (Some (fresh_id e)) in
        Next (json 201 [("message", JStr "Artist created successfully");
                        ("artist", opt_json createdArtist)], db'))).

(** The [artistData] of PUT /artists/:id, taken from the body as it is. *)
Definition raw (b : list (string * value)) : data :=
  {| name := get "name" b;
     genre := get "genre" b;
     country := get "country" b;
     formed_year := parseInt (get "formed_year" b);
     members := get "members" b;
     biography := or_else (get "biography" b) (JStr "");
     website := or_else (get "website" b) (JStr "");
     social_media := or_else (get "social_media" b) (JObj []) |}.

(** PUT /artists/:id *)
Definition update (e : env) (db : database) (id : string)
           (b : list (string * value)) : response * database :=
  requireAuth e db
    (run db (internal_error "Failed to update artist")
       (reply_if (negb (ObjectId_isValid (JStr id))) (invalid_id "artist") ;;;
        let artistData := raw b in
        validationErrors <- validateArtist (current_year e) artistData ;;
        reply_if (nonempty validationErrors) (validation_failed validationErrors) ;;;
        result <- await (updateOne (artists db) (ObjectId_new (JStr id))
                           (op_set (fields_of artistData ++
                                    [("updatedAt", bson_date (now e))]))) ;;
        reply_if (snd result =? 0)
          (error_json 404 "Artist not found" "No artist exists with the provided ID") ;;;
        Next ({| status := 204; body := JUndefined |}, set_artists db (fst result)))).

(** DELETE /artists/:id *)
Definition delete (e : env) (db : database) (id : string) : response * database :=
  requireAuth e db
    (run db (internal_error "Failed to delete artist")
       (reply_if (negb (ObjectId_isValid (JStr id))) (invalid_id "artist") ;;;
        let albumsCount := countDocuments (albums db) [("artist_id", Equals (JStr id))] in
        reply_if (albumsCount >? 0)
          (error_json 400 "Cannot delete artist"
             (cat "Artist has " (cat (string_of_Z albumsCount)
                " album(s) associated. Please delete albums first."))) ;;;
        let result := deleteOne (artists db) (ObjectId_new (JStr id)) in
        reply_if (snd result =? 0)
          (error_json 404 "Artist not found" "No artist exists with the provided ID") ;;;
        Next (json 200 [("message", JStr "Artist deleted successfully")],
              set_artists db (fst result)))).

(** GET /artists/:id *)
Definition get_one (db : database) (id : string) : response * database :=
  run_read db (internal_error "Failed to fetch artist")
    (reply_if (negb (ObjectId_isValid (JStr id))) (invalid_id "artist") ;;;
     match findById (artists db) (ObjectId_new (JStr id)) with
     | None => Reply (error_json 404 "Artist not found"
                        "No artist exists with the provided ID")
     | Some artist => Next {| status := 200; body := doc_json artist |}
     end).
End WithHost.
End Artists.

Section Dates.
Context {H : Host}.

(** [new Date(v).getTime()], [None] when the date is invalid: a number is
    a time value if within the range of dates, a string is parsed, an
    array or object is first turned into a string. *)
Definition Date_new (v : value) : option Z :=
  match v with
  | JStr s => Date_parse s
  | JNum z => if Z.abs z <=? 8640000000000000 then Some z else None
  | JBool true => Some 1
  | JBool false | JNull => Some 0
  | JUndefined | JNaN => None
  | JArr _ | JObj _ => Date_parse (toString v)
  end.
End Dates.

(** [new Date('1900-01-01').getTime()] *)
Definition year_1900 : Z := -2208988800000.

(** ** routes/albums.js *)

Module Albums.

Record data : Type := {
  title : value;
  artist_id : value;
  release_date : value;
  genre : value;
  track_count : number;
  duration : number;
  record_label : value;
  cover_image_url : value
}.

Definition fields_of (a : data) : list (string * value) :=
  [("title", title a); ("artist_id", artist_id a);
   ("release_date", release_date a); ("genre", genre a);
   ("track_count", num_value (track_count a));
   ("duration", num_value (duration a));
   ("record_label", record_label a);
   ("cover_image_url", cover_image_url a)].

Section WithHost.
Context {H : Host}.

Definition release_date_errors (now : Z) (d : value) : list string :=
  if negb (truthy d) then ["Release date is required"]
  else
    match Date_new d with
    | None => ["Valid release date is required (YYYY-MM-DD format)"]
    | Some t =>
        if t >? now then ["Release date cannot be in the future"]
        else if t <? year_1900 then ["Release date cannot be before 1900"]
        else []
    end.

Definition validateAlbum (now : Z) (album : data) : list string :=
  required_string (title album) 200
    "Album title is required and must be a non-empty string"
    "Album title must be less than 200 characters"
  ++ required_id (artist_id album) "Valid artist ID is required"
  ++ release_date_errors now (release_date album)
  ++ required_string (genre album) 50
       "Genre is required and must be a non-empty string"
       "Genre must be less than 50 characters"
  ++ required_count (track_count album) 200
       "Valid track count is required (minimum 1)"
       "Track count cannot exceed 200"
  ++ required_count (duration album) 600
       "Valid duration in minutes is required (minimum 1)"
       "Duration cannot exceed 600 minutes (10 hours)"
  ++ optional_string (record_label album) 100
       "Record label must be a string with maximum 100 characters"
  ++ optional_url (cover_image_url album) "Cover image URL must be a valid URL".

(** [if (q) { year = parseInt(q); if (!isNaN(year)) query.release_date =
    { $gte: `${year}-01-01`, $lte: `${year}-12-31` } }] *)
Definition year_filter (q : value) : filter :=
  if truthy q then
    match parseInt q with
    | Int year =>
        [("release_date",
          Between (Some (JStr (cat (string_of_Z year) "-01-01")))
                  (Some (JStr (cat (string_of_Z year) "-12-31"))))]
    | NotANumber => []
    end
  else [].

(** The [query] object of GET /albums. *)
Definition build_query (query : list (string * value)) : step filter :=
  f_genre <- regexp_filter "genre" (get "genre" query) ;;
  Next (f_genre ++ id_filter "artist_id" (get "artist_id" query)
                ++ year_filter (get "year" query)).

(** GET /albums *)
Definition listing (db : database) (query : list (string * value))
  : response * database :=
  run_read db (internal_error "Failed to fetch albums")
    (f <- build_query query ;;
     paginate "albums" (albums db)
              ["title"; "genre"; "release_date"; "track_count"; "duration"; "createdAt"]
              query f).

Definition sanitize (b : list (string * value)) : data :=
  {| title := opt_toString_trim (get "title" b);
     artist_id := opt_toString_trim (get "artist_id" b);
     release_date := opt_toString_trim (get "release_date" b);
     genre := opt_toString_trim (get "genre" b);
     track_count := parseInt (get "track_count" b);
     duration := parseInt (get "duration" b);
     record_label := or_else (opt_toString_trim (get "record_label" b)) (JStr "");
     cover_image_url :=
       or_else (opt_toString_trim (get "cover_image_url" b)) (JStr "") |}.

Definition artist_not_found : response :=
  error_json 400 "Artist not found" "The specified artist does not exist".

(** POST /albums *)
Definition create (e : env) (db : database) (b : list (string * value))
  : response * database :=
  requireAuth e db
    (run db (internal_error "Failed to create album")
       (let albumData := sanitize b in
        let validationErrors := validateAlbum (now e) albumData in
        reply_if (nonempty validationErrors) (validation_failed validationErrors) ;;;
        let artist := findById (artists db) (ObjectId_new (artist_id albumData)) in
        reply_if (negb (found artist)) artist_not_found ;;;
        re <- await (RegExp_new (cat "^" (cat (toString (title albumData)) "$"))) ;;
        let existingAlbum :=
          findOne (albums db)
                  [("title", Matches re); ("artist_id", Equals (artist_id albumData))] in
        reply_if (found existingAlbum)
          (error_json 409 "Album already exists"
             "This artist already has an album with this title") ;;;
        let doc := {| _id := fresh_id e;
                      doc_fields := fields_of albumData ++
                        [("createdAt", bson_date (now e));
                         ("updatedAt", bson_date (now e))] |} in
        let db' := set_albums db (insertOne (albums db) doc) in
        let createdAlbum := findById (albums db') (Some (fresh_id e)) in
        Next (json 201 [("message", JStr "Album created successfully");
                        ("album", opt_json createdAlbum)], db'))).

Definition raw (b : list (string * value)) : data :=
  {| title := get "title" b;
     artist_id := get "artist_id" b;
     release_date := get "release_date" b;
     genre := get "genre" b;
     track_count := parseInt (get "track_count" b);
     duration := parseInt (get "duration" b);
     record_label := or_else (get "record_label" b) (JStr "");
     cover_image_url := or_else (get "cover_image_url" b) (JStr "") |}.

(** PUT /albums/:id *)
Definition update (e : env) (db : database) (id : string)
           (b : list (string * value)) : response * database :=
  requireAuth e db
    (run db (internal_error "Failed to update album")
       (reply_if (negb (ObjectId_isValid (JStr id))) (invalid_id "album") ;;;
        let albumData := raw b in
        let validationErrors := validateAlbum (now e) albumData in
        reply_if (nonempty validationErrors) (validation_failed validationErrors) ;;;
        let artist := findById (artists db) (ObjectId_new (artist_id albumData)) in
        reply_if (negb (found artist)) artist_not_found ;;;
        result <- await (updateOne (albums db) (ObjectId_new (JStr id))
                           (op_set (fields_of albumData ++
                                    [("updatedAt", bson_date (now e))]))) ;;
        reply_if (snd result =? 0)
          (error_json 404 "Album not found" "No album exists with the provided ID") ;;;
        Next ({| status := 204; body := JUndefined |}, set_albums db (fst result)))).

(** GET /albums/:id *)
Definition get_one (db : database) (id : string) : response * database :=
  run_read db (internal_error "Failed to fetch album")
    (reply_if (negb (ObjectId_isValid (JStr id))) (invalid_id "album") ;;;
     match findById (albums db) (ObjectId_new (JStr id)) with
     | None => Reply (error_json 404 "Album not found"
                        "No album exists with the provided ID")
     | Some album => Next {| status := 200; body := doc_json album |}
     end).

(** GET /albums/artist/:artistId *)
Definition by_artist (db : database) (artistId : string) : response * database :=
  run_read db (internal_error "Failed to fetch albums for the specified artist")
    (reply_if (negb (ObjectId_isValid (JStr artistId))) (invalid_id "artist") ;;;
     let found_albums := find (albums db) [("artist_id", Equals (JStr artistId))] in
     Next {| status := 200; body := JArr (map doc_json found_albums) |}).

(** DELETE /albums/:id *)
Definition delete (e : env) (db : database) (id : string) : response * database :=
  requireAuth e db
    (run db (internal_error "Failed to delete album")
       (reply_if (negb (ObjectId_isValid (JStr id))) (invalid_id "album") ;;;
        let result := deleteOne (albums db) (ObjectId_new (JStr id)) in
        reply_if (snd result =? 0)
          (error_json 404 "Album not found" "No album exists with the provided ID") ;;;
        Next (json 200 [("message", JStr "Album deleted successfully")],
              set_albums db (fst result)))).
End WithHost.
End Albums.

(** ** routes/songs.js *)

Module Songs.

(** [track_number] is [null] ([None]) or a [parseInt] result. *)
Record data : Type := {
  title : value;
  album_id : value;
  artist_id : value;
  duration : number;
  track_number : option number;
  genre : value;
  lyrics : value;
  audio_url : value;
  featured_artists : value
}.

Definition track_value (t : option number) : value :=
  match t with Some n => num_value n | None => JNull end.

Definition fields_of (s : data) : list (string * value) :=
  [("title", title s); ("album_id", album_id s); ("artist_id", artist_id s);
   ("duration", num_value (duration s));
   ("track_number", track_value (track_number s));
   ("genre", genre s); ("lyrics", lyrics s); ("audio_url", audio_url s);
   ("featured_artists", featured_artists s)].

Section WithHost.
Context {H : Host}.

(** [isNaN(t) || t < 1] for a track number; [null] counts as 0. *)
Definition nan_or_below_one (t : option number) : bool :=
  match t with
  | Some NotANumber => true
  | Some (Int z) => z <? 1
  | None => true
  end.

(** [if (t && (isNaN(t) || t < 1)) push(..) else if (t && t > 200) push(..)] *)
Definition track_number_errors (t : option number) : list string :=
  if truthy (track_value t) && nan_or_below_one t
  then ["Track number must be a positive integer"]
  else if truthy (track_value t) &&
          match t with Some n => above n 200 | None => false end
  then ["Track number cannot exceed 200"]
  else [].

Definition validateSong (song : data) : list string :=
  required_string (title song) 200
    "Song title is required and must be a non-empty string"
    "Song title must be less than 200 characters"
  ++ required_id (album_id song) "Valid album ID is required"
  ++ required_id (artist_id song) "Valid artist ID is required"
  ++ required_count (duration song) 3600
       "Valid duration in seconds is required (minimum 1)"
       "Duration cannot exceed 3600 seconds (1 hour)"
  ++ track_number_errors (track_number song)
  ++ required_string (genre song) 50
       "Genre is required and must be a non-empty string"
       "Genre must be less than 50 characters"
  ++ optional_string (lyrics song) 10000
       "Lyrics must be a string with maximum 10,000 characters"
  ++ optional_url (audio_url song) "Audio URL must be a valid URL"
  ++ (if truthy (featured_artists song) && negb (is_array (featured_artists song))
      then ["Featured artists must be an array"] else []).

(** [if (q) { n = parseInt(q); if (!isNaN(n)) bound = n }] *)
Definition bound (q : value) : option value :=
  if truthy q then
    match parseInt q with Int n => Some (JNum n) | NotANumber => None end
  else None.

(** [if (min || max) { query.duration = {}; ... }] *)
Definition duration_filter (dmin dmax : value) : filter :=
  if truthy dmin || truthy dmax
  then [("duration", Between (bound dmin) (bound dmax))]
  else [].

(** The [query] object of GET /songs. *)
Definition build_query (query : list (string * value)) : step filter :=
  f_genre <- regexp_filter "genre" (get "genre" query) ;;
  Next (f_genre ++ id_filter "artist_id" (get "artist_id" query)
                ++ id_filter "album_id" (get "album_id" query)
                ++ duration_filter (get "duration_min" query)
                                   (get "duration_max" query)).

(** GET /songs *)
Definition listing (db : database) (query : list (string * value))
  : response * database :=
  run_read db (internal_error "Failed to fetch songs")
    (f <- build_query query ;;
     paginate "songs" (songs db)
              ["title"; "genre"; "duration"; "track_number"; "createdAt"]
              query f).

(** The sanitised [songData] of POST /songs and PUT /songs/:id. *)
Definition sanitize (b : list (string * value)) : data :=
  {| title := opt_toString_trim (get "title" b);
     album_id := opt_toString_trim (get "album_id" b);
     artist_id := opt_toString_trim (get "artist_id" b);
     duration := parseInt (get "duration" b);
     track_number :=
       if truthy (get "track_number" b)
       then Some (parseInt (get "track_number" b)) else None;
     genre := opt_toString_trim (get "genre" b);
     lyrics := or_else (opt_toString_trim (get "lyrics" b)) (JStr "");
     audio_url := or_else (opt_toString_trim (get "audio_url" b)) (JStr "");
     featured_artists :=
       match get "featured_artists" b with
       | JArr l => JArr (List.filter truthy (map opt_toString_trim l))
       | _ => JArr []
       end |}.

Definition album_not_found : response :=
  error_json 400 "Album not found" "The specified album does not exist".
Definition artist_not_found : response :=
  error_json 400 "Artist not found" "The specified artist does not exist".

(** POST /songs *)
Definition create (e : env) (db : database) (b : list (string * value))
  : response * database :=
  requireAuth e db
    (run db (internal_error "Failed to create song")
       (let songData := sanitize b in
        let validationErrors := validateSong songData in
        reply_if (nonempty validationErrors) (validation_failed validationErrors) ;;;
        let album := findById (albums db) (ObjectId_new (album_id songData)) in
        reply_if (negb (found album)) album_not_found ;;;
        let artist := findById (artists db) (ObjectId_new (artist_id songData)) in
        reply_if (negb (found artist)) artist_not_found ;;;
        re <- await (RegExp_new (cat "^" (cat (toString (title songData)) "$"))) ;;
        let existingSong :=
          findOne (songs db)
                  [("title", Matches re); ("album_id", Equals (album_id songData))] in
        reply_if (found existingSong)
          (error_json 409 "Song already exists"
             "This album already has a song with this title") ;;;
        reply_if (truthy (track_value (track_number songData)) &&
                  found (findOne (songs db)
                           [("album_id", Equals (album_id songData));
                            ("track_number",
                             Equals (track_value (track_number songData)))]))
          (error_json 409 "Track number already exists"
             "This album already has a song with this track number") ;;;
        let doc := {| _id := fresh_id e;
                      doc_fields := fields_of songData ++
                        [("createdAt", bson_date (now e));
                         ("updatedAt", bson_date (now e))] |} in
        let db' := set_songs db (insertOne (songs db) doc) in
        let createdSong := findById (songs db') (Some (fresh_id e)) in
        Next (json 201 [("message", JStr "Song created successfully");
                        ("song", opt_json createdSong)], db'))).

(** PUT /songs/:id *)
Definition update (e : env) (db : database) (id : string)
           (b : list (string * value)) : response * database :=
  requireAuth e db
    (run db (internal_error "Failed to update song")
       (reply_if (negb (ObjectId_isValid (JStr id))) (invalid_id "song") ;;;
        let songData := sanitize b in
        let validationErrors := validateSong songData in
        reply_if (nonempty validationErrors) (validation_failed validationErrors) ;;;
        let album := findById (albums db) (ObjectId_new (album_id songData)) in
        reply_if (negb (found album)) album_not_found ;;;
        let artist := findById (artists db) (ObjectId_new (artist_id songData)) in
        reply_if (negb (found artist)) artist_not_found ;;;
        result <- await (updateOne (songs db) (ObjectId_new (JStr id))
                           (op_set (fields_of songData ++
                                    [("updatedAt", bson_date (now e))]))) ;;
        reply_if (snd result =? 0)
          (error_json 404 "Song not found" "No song exists with the provided ID") ;;;
        Next ({| status := 204; body := JUndefined |}, set_songs db (fst result)))).

(** GET /songs/:id *)
Definition get_one (db : database) (id : string) : response * database :=
  run_read db (internal_error "Failed to fetch song")
    (reply_if (negb (ObjectId_isValid (JStr id))) (invalid_id "song") ;;;
     match findById (songs db) (ObjectId_new (JStr id)) with
     | None => Reply (error_json 404 "Song not found"
                        "No song exists with the provided ID")
     | Some song => Next {| status := 200; body := doc_json song |}
     end).

(** GET /songs/album/:albumId:
    [find({ album_id }).sort({ track_number: 1 }).toArray()] *)
Definition by_album (db : database) (albumId : string) : response * database :=
  run_read db (internal_error "Failed to fetch songs for the specified album")
    (reply_if (negb (ObjectId_isValid (JStr albumId))) (invalid_id "album") ;;;
     let found_songs :=
       sort_docs (Some ("track_number", 1))
                 (find (songs db) [("album_id", Equals (JStr albumId))]) in
     Next {| status := 200; body := JArr (map doc_json found_songs) |}).

(** GET /songs/artist/:artistId *)
Definition by_artist (db : database) (artistId : string) : response * database :=
  run_read db (internal_error "Failed to fetch songs for the specified artist")
    (reply_if (negb (ObjectId_isValid (JStr artistId))) (invalid_id "artist") ;;;
     let found_songs := find (songs db) [("artist_id", Equals (JStr artistId))] in
     Next {| status := 200; body := JArr (map doc_json found_songs) |}).

(** DELETE /songs/:id *)
Definition delete (e : env) (db : database) (id : string) : response * database :=
  requireAuth e db
    (run db (internal_error "Failed to delete song")
       (reply_if (negb (ObjectId_isValid (JStr id))) (invalid_id "song") ;;;
        let result := deleteOne (songs db) (ObjectId_new (JStr id)) in
        reply_if (snd result =? 0)
          (error_json 404 "Song not found" "No song exists with the provided ID") ;;;
        Next (json 200 [("message", JStr "Song deleted successfully")],
              set_songs db (fst result)))).
End WithHost.
End Songs.

(** ** routes/playlists.js *)

(** [database.collection('songs')], under a name that the [songs] field of
    a playlist does not hide. *)
Abbreviation songs_collection := songs (only parsing).

Module Playlists.

Record data : Type := {
  name : value;
  creator_name : value;
  description : value;
  songs : value;
  tags : value;
  is_public : bool;
  cover_image_url : value
}.

Definition fields_of (p : data) : list (string * value) :=
  [("name", name p); ("creator_name", creator_name p);
   ("description", description p); ("songs", songs p); ("tags", tags p);
   ("is_public", JBool (is_public p));
   ("cover_image_url", cover_image_url p)].

Section WithHost.
Context {H : Host}.

(** The loop [if (!ObjectId.isValid(songs[i])) push(`Song ${i + 1} ...`)]. *)
Fixpoint each_song (i : Z) (l : list value) : list string :=
  match l with
  | [] => []
  | id :: l' =>
      (if negb (ObjectId_isValid id)
       then [cat "Song " (cat (string_of_Z (i + 1)) " must be a valid MongoDB ObjectId")]
       else [])
      ++ each_song (i + 1) l'
  end.

(** [id.toString()], a TypeError on [null] and [undefined] and on an
    object with a [toString] property of its own. *)
Definition id_string (id : value) : step string :=
  match id with
  | JUndefined | JNull => Throw
  | _ => if stringifiable id then Next (toString id) else Throw
  end.

Definition songs_errors (ss : value) : step (list string) :=
  match ss with
  | JArr l =>
      let each := each_song 0 l in
      songIds <- map_step id_string l ;;
      Next (each ++
            if nonempty (duplicates songIds)
            then ["Duplicate songs are not allowed in the playlist"] else [])
  | _ => Next (if truthy ss then ["Songs must be an array"] else [])
  end.

Definition tags_errors (ts : value) : list string :=
  match ts with
  | JArr l => each_entry "Tag " " must be less than 30 characters" 30 0 l
  | _ => if truthy ts then ["Tags must be an array"] else []
  end.

Definition validatePlaylist (playlist : data) : step (list string) :=
  let e_name := required_string (name playlist) 100
        "Playlist name is required and must be a non-empty string"
        "Playlist name must be less than 100 characters" in
  let e_creator := required_string (creator_name playlist) 100
        "Creator name is required and must be a non-empty string"
        "Creator name must be less than 100 characters" in
  let e_description := optional_string (description playlist) 1000
        "Description must be a string with maximum 1000 characters" in
  e_songs <- songs_errors (songs playlist) ;;
  let e_tags := tags_errors (tags playlist) in
  let e_cover := optional_url (cover_image_url playlist)
        "Cover image URL must be a valid URL" in
  Next (e_name ++ e_creator ++ e_description ++ e_songs ++ e_tags ++ e_cover).

(** [if (q !== undefined) query.is_public = q === 'true'] *)
Definition public_filter (q : value) : filter :=
  match q with
  | JUndefined => []
  | _ => [("is_public", Equals (JBool (scalar_eqb q (JStr "true"))))]
  end.

(** The [query] object of GET /playlists. *)
Definition build_query (query : list (string * value)) : step filter :=
  f_creator <- regexp_filter "creator_name" (get "creator" query) ;;
  f_tag <- regexp_filter "tags" (get "tag" query) ;;
  Next (f_creator ++ f_tag ++ public_filter (get "is_public" query)).

(** GET /playlists *)
Definition listing (db : database) (query : list (string * value))
  : response * database :=
  run_read db (internal_error "Failed to fetch playlists")
    (f <- build_query query ;;
     paginate "playlists" (playlists db)
              ["name"; "creator_name"; "createdAt"; "updatedAt"]
              query f).

Definition playlist_not_found (msg : string) : response :=
  error_json 404 "Playlist not found" msg.

(** [new ObjectId(id)] inside a [map]: [null] and [undefined] give a
    generated identifier, a malformed string throws. *)
Definition ObjectId_ctor (id : value) : step (option ObjectId) :=
  match id with
  | JUndefined | JNull => Next None
  | _ => if ObjectId_isValid id then Next (ObjectId_new id) else Throw
  end.

(** [songs.find(song => song._id.toString() === songId.toString())]: the
    callback, and with it [songId.toString()], runs only when [songs]
    has an element. *)
Definition find_song (found_songs : list document) (songId : value)
  : step (option document) :=
  match found_songs with
  | [] => Next None
  | _ =>
      s <- id_string songId ;;
      Next (List.find (fun song => (_id song =? s)%string) found_songs)
  end.

(** [.filter(song => song !== undefined)] *)
Fixpoint defined {A : Type} (l : list (option A)) : list A :=
  match l with
  | [] => []
  | Some x :: l' => x :: defined l'
  | None :: l' => defined l'
  end.

(** GET /playlists/:id/songs *)
Definition songs_of (db : database) (id : string) : response * database :=
  run_read db (internal_error "Failed to fetch playlist songs")
    (reply_if (negb (ObjectId_isValid (JStr id))) (invalid_id "playlist") ;;;
     match findById (playlists db) (ObjectId_new (JStr id)) with
     | None => Reply (playlist_not_found "No playlist exists with the provided ID")
     | Some playlist =>
         match get "songs" (doc_fields playlist) with
         | JArr [] => Next {| status := 200; body := JArr [] |}
         | JArr ids =>
             songIds <- map_step ObjectId_ctor ids ;;
             let found_songs := find_in (songs_collection db) songIds in
             entries <- map_step (find_song found_songs) ids ;;
             let orderedSongs := defined entries in
             Next {| status := 200; body := JArr (map doc_json orderedSongs) |}
         | v =>
             (* [!v || v.length === 0], else [v.map] is not a function *)
             if negb (truthy v) ||
                match v with
                | JObj o => scalar_eqb (get "length" o) (JNum 0)
                | _ => false
                end
             then Next {| status := 200; body := JArr [] |}
             else Throw
         end
     end).

(** The sanitised [playlistData] of POST /playlists and PUT /playlists/:id. *)
Definition sanitize (b : list (string * value)) : data :=
  {| name := opt_toString_trim (get "name" b);
     creator_name := opt_toString_trim (get "creator_name" b);
     description := or_else (opt_toString_trim (get "description" b)) (JStr "");
     songs :=
       match get "songs" b with
       | JArr l => JArr (List.filter ObjectId_isValid l)
       | _ => JArr []
       end;
     tags :=
       match get "tags" b with
       | JArr l => JArr (List.filter truthy (map opt_toString_trim l))
       | _ => JArr []
       end;
     is_public := scalar_eqb (get "is_public" b) (JBool true)
                  || scalar_eqb (get "is_public" b) (JStr "true");
     cover_image_url :=
       or_else (opt_toString_trim (get "cover_image_url" b)) (JStr "") |}.

Definition array_items (v : value) : list value :=
  match v with JArr l => l | _ => [] end.

(** [if (songs.length > 0) { existing = find({_id: {$in: ids}});
     if (existing.length !== songs.length) return 400 }] *)
Definition check_songs_exist (db : database) (p : data) : step unit :=
  let ids := array_items (songs p) in
  if nonempty ids then
    let songIds := map ObjectId_new ids in
    let existingSongs := find_in (songs_collection db) songIds in
    reply_if (negb (List.length existingSongs =? List.length ids)%nat)
      (error_json 400 "Invalid songs" "One or more song IDs do not exist")
  else Next tt.

(** POST /playlists *)
Definition create (e : env) (db : database) (b : list (string * value))
  : response * database :=
  requireAuth e db
    (run db (internal_error "Failed to create playlist")
       (let playlistData := sanitize b in
        validationErrors <- validatePlaylist playlistData ;;
        reply_if (nonempty validationErrors) (validation_failed validationErrors) ;;;
        check_songs_exist db playlistData ;;;
        re <- await (RegExp_new (cat "^" (cat (toString (name playlistData)) "$"))) ;;
        let existingPlaylist :=
          findOne (playlists db)
                  [("name", Matches re);
                   ("creator_name", Equals (creator_name playlistData))] in
        reply_if (found existingPlaylist)
          (error_json 409 "Playlist already exists"
             "You already have a playlist with this name") ;;;
        let doc := {| _id := fresh_id e;
                      doc_fields := fields_of playlistData ++
                        [("createdAt", bson_date (now e));
                         ("updatedAt", bson_date (now e))] |} in
        let db' := set_playlists db (insertOne (playlists db) doc) in
        let createdPlaylist := findById (playlists db') (Some (fresh_id e)) in
        Next (json 201 [("message", JStr "Playlist created successfully");
                        ("playlist", opt_json createdPlaylist)], db'))).

(** PUT /playlists/:id *)
Definition update (e : env) (db : database) (id : string)
           (b : list (string * value)) : response * database :=
  requireAuth e db
    (run db (internal_error "Failed to update playlist")
       (reply_if (negb (ObjectId_isValid (JStr id))) (invalid_id "playlist") ;;;
        let playlistData := sanitize b in
        validationErrors <- validatePlaylist playlistData ;;
        reply_if (nonempty validationErrors) (validation_failed validationErrors) ;;;
        check_songs_exist db playlistData ;;;
        result <- await (updateOne (playlists db) (ObjectId_new (JStr id))
                           (op_set (fields_of playlistData ++
                                    [("updatedAt", bson_date (now e))]))) ;;
        reply_if (snd result =? 0)
          (playlist_not_found "No playlist exists with the provided ID") ;;;
        Next ({| status := 204; body := JUndefined |},
              set_playlists db (fst result)))).

(** [playlist.songs && playlist.songs.includes(songId)]; [includes] is
    the array's or the string's, and a TypeError on any other value. *)
Definition already_in (v : value) (songId : string) : step bool :=
  if negb (truthy v) then Next false
  else
    match v with
    | JArr l => Next (existsb (scalar_eqb (JStr songId)) l)
    | JStr s => Next (includes_string songId s)
    | _ => Throw
    end.

(** PUT /playlists/:id/songs/:songId *)
Definition add_song (e : env) (db : database) (id songId : string)
  : response * database :=
  requireAuth e db
    (run db (internal_error "Failed to add song to playlist")
       (reply_if (negb (ObjectId_isValid (JStr id))) (invalid_id "playlist") ;;;
        reply_if (negb (ObjectId_isValid (JStr songId))) (invalid_id "song") ;;;
        let song := findById (songs_collection db) (ObjectId_new (JStr songId)) in
        reply_if (negb (found song))
          (error_json 404 "Song not found" "The specified song does not exist") ;;;
        match findById (playlists db) (ObjectId_new (JStr id)) with
        | None => Reply (playlist_not_found "The specified playlist does not exist")
        | Some playlist =>
            present <- already_in (get "songs" (doc_fields playlist)) songId ;;
            reply_if present
              (error_json 409 "Song already in playlist"
                 "This song is already in the playlist") ;;;
            result <- await (updateOne (playlists db) (ObjectId_new (JStr id))
                               (fun o => and_then (op_push "songs" (JStr songId) o)
                                           (op_set [("updatedAt", bson_date (now e))]))) ;;
            Next (json 200 [("message", JStr "Song added to playlist successfully")],
                  set_playlists db (fst result))
        end)).

(** DELETE /playlists/:id/songs/:songId *)
Definition remove_song (e : env) (db : database) (id songId : string)
  : response * database :=
  requireAuth e db
    (run db (internal_error "Failed to remove song from playlist")
       (reply_if (negb (ObjectId_isValid (JStr id))) (invalid_id "playlist") ;;;
        reply_if (negb (ObjectId_isValid (JStr songId))) (invalid_id "song") ;;;
        result <- await (updateOne (playlists db) (ObjectId_new (JStr id))
                           (fun o => and_then (op_pull "songs" (JStr songId) o)
                                       (op_set [("updatedAt", bson_date (now e))]))) ;;
        reply_if (snd result =? 0)
          (playlist_not_found "The specified playlist does not exist") ;;;
        Next (json 200 [("message", JStr "Song removed from playlist successfully")],
              set_playlists db (fst result)))).

(** GET /playlists/:id *)
Definition get_one (db : database) (id : string) : response * database :=
  run_read db (internal_error "Failed to fetch playlist")
    (reply_if (negb (ObjectId_isValid (JStr id))) (invalid_id "playlist") ;;;
     match findById (playlists db) (ObjectId_new (JStr id)) with
     | None => Reply (playlist_not_found "No playlist exists with the provided ID")
     | Some playlist => Next {| status := 200; body := doc_json playlist |}
     end).

(** DELETE /playlists/:id *)
Definition delete (e : env) (db : database) (id : string) : response * database :=
  requireAuth e db
    (run db (internal_error "Failed to delete playlist")
       (reply_if (negb (ObjectId_isValid (JStr id))) (invalid_id "playlist") ;;;
        let result := deleteOne (playlists db) (ObjectId_new (JStr id)) in
        reply_if (snd result =? 0)
          (playlist_not_found "No playlist exists with the provided ID") ;;;
        Next (json 200 [("message", JStr "Playlist deleted successfully")],
              set_playlists db (fst result)))).
End WithHost.
End Playlists.

(** ** A host for concrete requests

    [frag_host] answers as the JavaScript engine does on a fragment of its
    input: regular expressions built from literal characters, [.], the
    anchors [^] and [$], escaped syntax characters and the quantifiers
    [*], [+] and [?] on a single character; URLs with an http or https
    scheme; calendar dates written YYYY-MM-DD.  Outside the fragment it
    refuses the input, which is the engine's answer for the inputs the
    examples below rely on (an unterminated character class, a missing
    scheme). *)

Module Frag.

Inductive atom : Type := AnyChar | Lit (c : ascii) | Bol | Eol.
Inductive quant : Type := One | Star | Plus | Opt.
Definition pattern := list (atom * quant).

Definition syntax_char (c : ascii) : bool :=
  existsb (Ascii.eqb c)
    ["^"; "$"; "\"; "."; "*"; "+"; "?"; "("; ")"; "["; "]"; "{"; "}"; "|"; "/"]%char.

(** [acc] holds the items read so far, last first. *)
Fixpoint parse (s : string) (acc : pattern) : option pattern :=
  match s with
  | EmptyString => Some (rev acc)
  | String "\"%char (String c r) =>
      if syntax_char c then parse r ((Lit c, One) :: acc) else None
  | String c r =>
      if existsb (Ascii.eqb c) ["*"; "+"; "?"]%char then
        match acc with
        | (Lit _ as a, One) :: acc' | (AnyChar as a, One) :: acc' =>
            parse r ((a, if Ascii.eqb c "*" then Star
                         else if Ascii.eqb c "+" then Plus else Opt) :: acc')
        | _ => None
        end
      else if existsb (Ascii.eqb c) ["("; ")"; "["; "]"; "{"; "}"; "|"; "\"]%char then None
      else if Ascii.eqb c "." then parse r ((AnyChar, One) :: acc)
      else if Ascii.eqb c "^" then parse r ((Bol, One) :: acc)
      else if Ascii.eqb c "$" then parse r ((Eol, One) :: acc)
      else parse r ((Lit c, One) :: acc)
  end.

Definition line_end (c : ascii) : bool :=
  let n := N_of_ascii c in ((n =? 10) || (n =? 13))%N.

(** One character against an atom, ignoring case. *)
Definition atom_ok (a : atom) (c : ascii) : bool :=
  match a with
  | AnyChar => negb (line_end c)
  | Lit x => Ascii.eqb (lower_ascii x) (lower_ascii c)
  | Bol | Eol => false
  end.

Fixpoint match_here (p : pattern) (at_start : bool) (s : string) : bool :=
  match p with
  | [] => true
  | (Bol, _) :: p' => at_start && match_here p' at_start s
  | (Eol, _) :: p' => (s =? "")%string && match_here p' at_start s
  | (a, One) :: p' =>
      match s with
      | String c r => atom_ok a c && match_here p' false r
      | EmptyString => false
      end
  | (a, Opt) :: p' =>
      match_here p' at_start s ||
      match s with
      | String c r => atom_ok a c && match_here p' false r
      | EmptyString => false
      end
  | (a, Star) :: p' =>
      (fix star (st : bool) (t : string) : bool :=
         match_here p' st t ||
         match t with
         | String c r => atom_ok a c && star false r
         | EmptyString => false
         end) at_start s
  | (a, Plus) :: p' =>
      match s with
      | String c r =>
          atom_ok a c &&
          (fix star (t : string) : bool :=
             match_here p' false t ||
             match t with
             | String c' r' => atom_ok a c' && star r'
             | EmptyString => false
             end) r
      | EmptyString => false
      end
  end.

Fixpoint search (p : pattern) (at_start : bool) (s : string) : bool :=
  match_here p at_start s ||
  match s with
  | String _ r => search p false r
  | EmptyString => false
  end.

Definition url_ok (s : string) : bool :=
  (String.prefix "http://" s && (7 <? String.length s)%nat) ||
  (String.prefix "https://" s && (8 <? String.length s)%nat).

Definition digits (s : string) : option Z :=
  if nonempty (list_ascii_of_string s) &&
     forallb (fun c => match digit_of c with Some d => d <? 10 | None => false end)
             (list_ascii_of_string s)
  then digits_prefix 10 None s else None.

Definition days_in_month (y m : Z) : Z :=
  if m =? 2 then
    if ((y mod 4 =? 0) && negb (y mod 100 =? 0)) || (y mod 400 =? 0) then 29 else 28
  else if existsb (Z.eqb m) [4; 6; 9; 11] then 30 else 31.

(** Days from 1970-01-01 to the given date of the Gregorian calendar. *)
Definition days_from_civil (y m d : Z) : Z :=
  let y' := if m <=? 2 then y - 1 else y in
  let era := y' / 400 in
  let yoe := y' - era * 400 in
  let doy := (153 * (if m >? 2 then m - 3 else m + 9) + 2) / 5 + d - 1 in
  let doe := yoe * 365 + yoe / 4 - yoe / 100 + doy in
  era * 146097 + doe - 719468.

Definition date_ms (s : string) : option Z :=
  if (String.length s =? 10)%nat
     && (substring 4 1 s =? "-")%string && (substring 7 1 s =? "-")%string then
    match digits (substring 0 4 s), digits (substring 5 2 s), digits (substring 8 2 s) with
    | Some y, Some m, Some d =>
        if (1 <=? m) && (m <=? 12) && (1 <=? d) && (d <=? days_in_month y m)
        then Some (days_from_civil y m d * 86400000) else None
    | _, _, _ => None
    end
  else None.

Definition rank (v : value) : Z :=
  match v with
  | JUndefined | JNull => 1
  | JNum _ | JNaN => 2
  | JStr _ => 3
  | JObj _ => 4
  | JArr _ => 5
  | JBool _ => 6
  end.

Definition compare_values (a b : value) : comparison :=
  match a, b with
  | JNum x, JNum y => Z.compare x y
  | JStr s, JStr t => String.compare s t
  | JBool x, JBool y => Bool.compare x y
  | _, _ => Z.compare (rank a) (rank b)
  end.

End Frag.

#[export] Instance frag_host : Host := {|
  regexp := Frag.pattern;
  RegExp_new := fun s => Frag.parse s [];
  RegExp_test := fun p s => Frag.search p true s;
  URL_parses := Frag.url_ok;
  Date_parse := Frag.date_ms;
  bson_compare := Frag.compare_values
|}.

(** ** A client that walks the pages of a listing *)

Definition authorized (e : env) : bool := isDemoMode e || has_user e.

Definition body_field (k : string) (r : response) : value :=
  match body r with JObj o => get k o | _ => JUndefined end.

Definition pagination_field (k : string) (r : response) : value :=
  match body_field "pagination" r with JObj o => get k o | _ => JUndefined end.

(** Number of items under [key] in a listing response. *)
Definition items_count (key : string) (r : response) : Z :=
  match body_field key r with JArr l => Z.of_nat (List.length l) | _ => 0 end.

Inductive walk : Type :=
| Done (total : Z)        (* the last page said hasNext = false *)
| Failed (st : Z)         (* a page was not answered with 200 *)
| OutOfFuel.

(** Requests page [page], [page + 1], ... while the response says
    [hasNext]; adds up the numbers of items received. *)
Fixpoint crawl (fetch : Z -> response) (key : string) (page : Z) (acc : Z)
         (fuel : nat) : walk :=
  match fuel with
  | O => OutOfFuel
  | S fuel' =>
      let r := fetch page in
      if status r =? 200 then
        match pagination_field "hasNext" r with
        | JBool true => crawl fetch key (page + 1) (acc + items_count key r) fuel'
        | _ => Done (acc + items_count key r)
        end
      else Failed (status r)
  end.

(** The query [q] with its page parameter set to [p]; [parseInt] reads the
    page number back. *)
Definition at_page (q : list (string * value)) (p : Z) : list (string * value) :=
  ("page", JNum p) :: q.

(** The body [b] without the key [k]. *)
Fixpoint without (k : string) (b : list (string * value)) : list (string * value) :=
  match b with
  | [] => []
  | (k', v) :: b' => if (k =? k')%string then without k b' else (k', v) :: without k b'
  end.

(** The last document of a collection, the one [insertOne] has just added. *)
Definition newest (c : collection) : option document := last (map Some c) None.

Definition resolves (c : collection) (id : value) : bool :=
  found (findById c (ObjectId_new id)).

(** ** Notions used by the statements below *)

Section Compiles.
Context {H : Host}.

(** The filter parameter [v] is absent or compiles as a regular expression. *)
Definition compiles (v : value) : bool :=
  negb (truthy v) || found (RegExp_new (toString v)).
End Compiles.

Definition empty_db : database :=
  {| artists := []; albums := []; songs := []; playlists := [] |}.

Section GenericListing.
Context {H : Host}.

(** The shape shared by the four [router.get('/')] handlers: build the
    query, then paginate. *)
Definition listing_of (key : string) (sortable : list string) (internal : response)
           (build : list (string * value) -> step filter)
           (c : collection) (db : database) (q : list (string * value))
  : response * database :=
  run_read db internal (f <- build q ;; paginate key c sortable q f).
End GenericListing.

Definition sample_env (id : ObjectId) : env :=
  {| now := 1700000000000; current_year := 2023; fresh_id := id;
     isDemoMode := false; has_user := true |}.

Definition id1 : ObjectId := "64b000000000000000000001".
Definition id2 : ObjectId := "64b000000000000000000002".
Definition id3 : ObjectId := "64b000000000000000000003".
Definition id4 : ObjectId := "64b000000000000000000004".
Definition id5 : ObjectId := "64b000000000000000000005".

Definition artist_body (n : string) : list (string * value) :=
  [("name", JStr n); ("genre", JStr "Rock"); ("country", JStr "UK");
   ("formed_year", JNum 2000); ("members", JArr [JStr "X"])].

(** The database after POST /artists has created the artist "A". *)
Definition one_artist : database :=
  snd (Artists.create (sample_env id1) empty_db (artist_body "A")).

(** The four entity kinds and their handlers. *)
Inductive kind : Type := Artist | Album | Song | Playlist.

Definition key_of (k : kind) : string :=
  match k with
  | Artist => "artists" | Album => "albums" | Song => "songs" | Playlist => "playlists"
  end.

Definition collection_of (k : kind) (db : database) : collection :=
  match k with
  | Artist => artists db | Album => albums db | Song => songs db | Playlist => playlists db
  end.

Section ByKind.
Context {H : Host}.

Definition build_query_of (k : kind) : list (string * value) -> step filter :=
  match k with
  | Artist => Artists.build_query
  | Album => Albums.build_query
  | Song => Songs.build_query
  | Playlist => Playlists.build_query
  end.

Definition listing (k : kind) : database -> list (string * value) -> response * database :=
  match k with
  | Artist => Artists.listing
  | Album => Albums.listing
  | Song => Songs.listing
  | Playlist => Playlists.listing
  end.

Definition create (k : kind)
  : env -> database -> list (string * value) -> response * database :=
  match k with
  | Artist => Artists.create
  | Album => Albums.create
  | Song => Songs.create
  | Playlist => Playlists.create
  end.

Definition update (k : kind)
  : env -> database -> string -> list (string * value) -> response * database :=
  match k with
  | Artist => Artists.update
  | Album => Albums.update
  | Song => Songs.update
  | Playlist => Playlists.update
  end.
End ByKind.

(** The query parameters that a listing compiles into regular expressions. *)
Definition regexp_params (k : kind) : list string :=
  match k with
  | Artist => ["genre"; "country"]
  | Album | Song => ["genre"]
  | Playlist => ["creator"; "tag"]
  end.

Section FiltersCompile.
Context {H : Host}.

Definition filters_compile (k : kind) (q : list (string * value)) : bool :=
  forallb (fun p => compiles (get p q)) (regexp_params k).
End FiltersCompile.

Definition album_doc (id : ObjectId) (title artist : string) : document :=
  {| _id := id;
     doc_fields := [("title", JStr title); ("artist_id", JStr artist);
                    ("release_date", JStr "2020-01-01"); ("genre", JStr "Rock");
                    ("track_count", JNum 10); ("duration", JNum 40)] |}.


Definition song_body (title album artist : string) (track : value)
  : list (string * value) :=
  [("title", JStr title); ("album_id", JStr album); ("artist_id", JStr artist);
   ("duration", JNum 200); ("track_number", track); ("genre", JStr "Rock")].


Definition idA : ObjectId := "64b0000000000000000000a1".
Definition idB : ObjectId := "64b0000000000000000000a2".
Definition idT : ObjectId := "64b0000000000000000000b1".
Definition idU : ObjectId := "64b0000000000000000000b2".
Definition idS : ObjectId := "64b0000000000000000000c1".
Definition idR : ObjectId := "64b0000000000000000000c2".
Definition idP : ObjectId := "64b0000000000000000000d1".
Definition idQ : ObjectId := "64b0000000000000000000d2".

Definition artist_doc (id : ObjectId) (n : string) : document :=
  {| _id := id; doc_fields := artist_body n |}.

Definition song_doc (id : ObjectId) (title album artist : string) (track : Z) : document :=
  {| _id := id; doc_fields := song_body title album artist (JNum track) |}.

Definition playlist_body (n creator : string) (ids : list value) : list (string * value) :=
  [("name", JStr n); ("creator_name", JStr creator); ("songs", JArr ids)].

Definition playlist_doc (id : ObjectId) (n creator : string) (ids : list value) : document :=
  {| _id := id; doc_fields := playlist_body n creator ids |}.

Definition album_body (title artist : string) : list (string * value) :=
  [("title", JStr title); ("artist_id", JStr artist);
   ("release_date", JStr "2020-01-01"); ("genre", JStr "Rock");
   ("track_count", JNum 10); ("duration", JNum 40)].

(** Two artists, two albums of the first, two songs of the first album and
    two playlists of one creator. *)
Definition library : database :=
  {| artists := [artist_doc idA "A"; artist_doc idB "B"];
     albums := [album_doc idT "T" idA; album_doc idU "U" idA];
     songs := [song_doc idS "S" idT idA 1; song_doc idR "R" idT idA 2];
     playlists := [playlist_doc idP "P" "me" [JStr idS];
                   playlist_doc idQ "Q" "me" [JStr idS; JStr idR]] |}.

(** A PUT /artists/:id body whose name is empty and whose only member is
    the number 5. *)
Definition bad_members_body : list (string * value) :=
  [("name", JStr ""); ("genre", JStr "Rock"); ("country", JStr "UK");
   ("formed_year", JNum 2000); ("members", JArr [JNum 5])].

(** The identifier of the song "S" written with upper-case digits. *)
Definition idS_upper : string := "64B0000000000000000000C1".

(** The [songs] field of the playlist with identifier [id], if there is one. *)
Definition songs_field (db : database) (id : string) : option value :=
  option_map (fun p => get "songs" (doc_fields p))
             (findById (playlists db) (ObjectId_new (JStr id))).

(** [library] after the song "S" has been deleted: the playlists still
    carry its identifier. *)
Definition dangling : database :=
  set_songs library [song_doc idR "R" idT idA 2].

(** What [$pull] leaves of an array. *)
Definition pulled (x : string) (l : list value) : list value :=
  List.filter (fun e => negb (scalar_eqb (JStr x) e)) l.


(** An identifier string as the store prints it: 24 hexadecimal digits, the
    letters in lower case. *)
Definition canonical (s : string) : Prop :=
  hex24 s = true /\ toLowerCase s = s.


Section DuplicateFilter.
Context {H : Host}.

End DuplicateFilter.

Section PassesChecks.
Context {H : Host}.

End PassesChecks.


(** ** The conversions of a create handler

    [x?.toString()], [parseInt(x)] and, in [validatePlaylist],
    [id.toString()] raise a TypeError on a value that is not
    [stringifiable]; the handler then ends in its [catch] and answers 500.
    [converts k b] says that none of the conversions that POST of the kind
    [k] makes on the body [b] raises: on such bodies the handler answers
    as [create] computes. *)




Section CreateStages.
Context {H : Host}.


End CreateStages.

(** A string of ASCII characters: on these the byte-wise [trim],
    [toLowerCase] and [slen] are those of JavaScript. *)
Definition ascii_string (s : string) : bool :=
  forallb (fun c => (N_of_ascii c <? 128)%N) (list_ascii_of_string s).

(** ** Notions used by the further properties *)


Definition set_collection (k : kind) (db : database) (c : collection) : database :=
  match k with
  | Artist => set_artists db c
  | Album => set_albums db c
  | Song => set_songs db c
  | Playlist => set_playlists db c
  end.

Section MoreByKind.
Context {H : Host}.

Definition get_one (k : kind) : database -> string -> response * database :=
  match k with
  | Artist => Artists.get_one
  | Album => Albums.get_one
  | Song => Songs.get_one
  | Playlist => Playlists.get_one
  end.

Definition delete (k : kind) : env -> database -> string -> response * database :=
  match k with
  | Artist => Artists.delete
  | Album => Albums.delete
  | Song => Songs.delete
  | Playlist => Playlists.delete
  end.

(** The fields that POST stores for the body [b]. *)
Definition stored_fields (k : kind) (e : env) (b : list (string * value))
  : list (string * value) :=
  match k with
  | Artist => Artists.fields_of (Artists.sanitize b)
  | Album => Albums.fields_of (Albums.sanitize b)
  | Song => Songs.fields_of (Songs.sanitize b)
  | Playlist => Playlists.fields_of (Playlists.sanitize b)
  end ++ [("createdAt", bson_date (now e)); ("updatedAt", bson_date (now e))].


(** The requests that go through [requireAuth]. *)
Inductive write_request : Type :=
| Create (k : kind) (b : list (string * value))
| Update (k : kind) (id : string) (b : list (string * value))
| Delete (k : kind) (id : string)
| AddSong (id songId : string)
| RemoveSong (id songId : string).

Definition handle (e : env) (db : database) (w : write_request)
  : response * database :=
  match w with
  | Create k b => create k e db b
  | Update k id b => update k e db id b
  | Delete k id => delete k e db id
  | AddSong id songId => Playlists.add_song e db id songId
  | RemoveSong id songId => Playlists.remove_song e db id songId
  end.

(** The [sort] option that a listing passes to the store. *)
Definition sort_option (sortable : list string) (query : list (string * value))
  : option (string * Z) :=
  if truthy (get "sortBy" query) then
    let sortOrder :=
      if scalar_eqb (get "sortOrder" query) (JStr "desc") then -1 else 1 in
    match get "sortBy" query with
    | JStr sortField =>
        if existsb (String.eqb sortField) sortable
        then Some (sortField, sortOrder) else None
    | _ => None
    end
  else None.
End MoreByKind.

Definition sortable_of (k : kind) : list string :=
  match k with
  | Artist => ["name"; "genre"; "country"; "formed_year"; "createdAt"]
  | Album => ["title"; "genre"; "release_date"; "track_count"; "duration"; "createdAt"]
  | Song => ["title"; "genre"; "duration"; "track_number"; "createdAt"]
  | Playlist => ["name"; "creator_name"; "createdAt"; "updatedAt"]
  end.

(** The items of a listing response. *)
Definition page_items (key : string) (r : response) : list value :=
  match body_field key r with JArr l => l | _ => [] end.

(** The array that a relation-scoped read answers with. *)
Definition body_items (r : response) : list value :=
  match body r with JArr l => l | _ => [] end.

Definition unauthorized : response :=
  error_json 401 "Authentication required" "Please log in to access this resource".



(** The guard of DELETE /artists/:id: no album carries the identifier
    string as its artist.  The other kinds have no guard. *)
Definition unreferenced {H : Host} (k : kind) (db : database) (id : string) : Prop :=
  k = Artist -> countDocuments (albums db) [("artist_id", Equals (JStr id))] = 0.

(** The status with which a write request reports that it was carried out. *)
Definition success_status (w : write_request) : Z :=
  match w with
  | Create _ _ => 201
  | Update _ _ _ => 204
  | Delete _ _ | AddSong _ _ | RemoveSong _ _ => 200
  end.

(** ** Basic facts about objects, the gate and the control flow *)

Lemma get_head k v o : get k ((k, v) :: o) = v.
Proof. cbn [get]. rewrite String.eqb_refl. reflexivity. Qed.

Lemma get_tail k k' v o : (k =? k')%string = false -> get k ((k', v) :: o) = get k o.
Proof. intros E. cbn [get]. rewrite E. reflexivity. Qed.

Lemma get_without k k' b :
  get k (without k' b) = if (k =? k')%string then JUndefined else get k b.
Proof.
  induction b as [| [k0 v] b IH]; cbn [without get].
  - destruct (k =? k')%string; reflexivity.
  - destruct (String.eqb_spec k' k0) as [-> | N].
    + rewrite IH. destruct (String.eqb_spec k k0); reflexivity.
    + cbn [get]. destruct (String.eqb_spec k k0) as [-> | N'].
      * destruct (String.eqb_spec k0 k'); [congruence | reflexivity].
      * exact IH.
Qed.

Lemma authorized_requireAuth e db h : authorized e = true -> requireAuth e db h = h.
Proof.
  unfold authorized, requireAuth. destruct (isDemoMode e); [reflexivity |].
  cbn. intros ->. reflexivity.
Qed.

Lemma unauthorized_requireAuth e db h :
  authorized e = false -> status (fst (requireAuth e db h)) = 401 /\ snd (requireAuth e db h) = db.
Proof.
  unfold authorized, requireAuth. destruct (isDemoMode e); [discriminate |].
  cbn. intros ->. split; reflexivity.
Qed.

Ltac case_cond :=
  match goal with
  | |- context [bind (reply_if ?c ?r) _] =>
      let E := fresh "E" in destruct c eqn:E; cbn [reply_if bind]
  | |- context [bind (await ?o) _] =>
      let E := fresh "E" in destruct o eqn:E; cbn [await bind]
  end.

Section Handlers.
Context {H : Host}.

Lemma map_step_never_replies {A B : Type} (f : A -> step B) l r :
  (forall x r', f x <> Reply r') -> map_step f l <> Reply r.
Proof.
  intros Hf. revert r. induction l as [| x l IH]; intros r; cbn [map_step].
  - discriminate.
  - destruct (f x) eqn:E; cbn [bind]; [| exfalso; exact (Hf _ _ E) | discriminate].
    destruct (map_step f l) eqn:E'; cbn [bind]; [discriminate | | discriminate].
    exfalso. exact (IH _ eq_refl).
Qed.

Lemma validateArtist_never_replies year a r : Artists.validateArtist year a <> Reply r.
Proof.
  unfold Artists.validateArtist, Artists.members_errors.
  destruct (Artists.members a) as [| | | | | | l |]; try discriminate.
  destruct l as [| m l]; [discriminate |].
  destruct (map_step Artists.member_name (m :: l)) eqn:E; cbn [bind]; try discriminate.
  exfalso. revert E. apply map_step_never_replies.
  intros x r'. destruct x; discriminate.
Qed.


Lemma check_songs_exist_cases db p :
  Playlists.check_songs_exist db p = Next tt \/
  Playlists.check_songs_exist db p =
    Reply (error_json 400 "Invalid songs" "One or more song IDs do not exist").
Proof.
  unfold Playlists.check_songs_exist.
  destruct (nonempty _); [| left; reflexivity].
  destruct (negb _); [right | left]; reflexivity.
Qed.

(** A create handler changes the database only when it answers 201. *)
Lemma create_writes_only_on_201 k e db b :
  status (fst (create k e db b)) <> 201 -> snd (create k e db b) = db.
Proof.
  destruct k; cbn [create];
    unfold Artists.create, Albums.create, Songs.create, Playlists.create, requireAuth;
    (destruct (isDemoMode e); [| destruct (negb (has_user e)); [reflexivity |]]).
  1,2: destruct (Artists.validateArtist _ _); cbn [bind run snd]; try reflexivity;
       repeat (case_cond; cbn [run snd fst]; try reflexivity);
       intros N; exfalso; apply N; reflexivity.
  1,2: repeat (case_cond; cbn [run snd fst]; try reflexivity);
       intros N; exfalso; apply N; reflexivity.
  1,2: repeat (case_cond; cbn [run snd fst]; try reflexivity);
       intros N; exfalso; apply N; reflexivity.
  1,2: destruct (Playlists.validatePlaylist _); cbn [bind run snd]; try reflexivity;
       case_cond; cbn [run snd fst]; try reflexivity;
       destruct (check_songs_exist_cases db (Playlists.sanitize b)) as [-> | ->];
       cbn [bind run snd fst]; try reflexivity;
       repeat (case_cond; cbn [run snd fst]; try reflexivity);
       intros N; exfalso; apply N; reflexivity.
Qed.

End Handlers.

(** ** Listings: pagination *)

(** [ceil_div a b] is the ceiling of the quotient: the least [k] with
    [a <= k * b] when [b] is positive. *)
Lemma ceil_div_spec a b k :
  0 < b -> (ceil_div a b = k <-> (k - 1) * b < a <= k * b).
Proof.
  intros Hb. unfold ceil_div. split.
  - intros <-.
    pose proof (Z.div_mod (- a) b ltac:(lia)) as E.
    pose proof (Z.mod_pos_bound (- a) b Hb) as B. nia.
  - intros [L U]. 
    assert (E : (- a) / b = - k); [| lia].
    symmetry. apply Z.div_unique with (r := k * b - a); lia.
Qed.

Lemma sort_docs_length {H : Host} s l : List.length (sort_docs s l) = List.length l.
Proof.
  unfold sort_docs. destruct s as [[field order]|]; [| reflexivity].
  assert (G : forall d acc, List.length (insert_sorted field order d acc) = S (List.length acc)).
  { intros d acc. induction acc as [| x acc IH]; simpl; [reflexivity |].
    destruct (before field order x d); simpl; [rewrite IH |]; reflexivity. }
  assert (F : forall l acc,
             List.length (fold_left (fun acc d => insert_sorted field order d acc) l acc)
             = (List.length l + List.length acc)%nat).
  { clear l. induction l as [| d l IH]; intros acc; simpl; [reflexivity |].
    rewrite IH, G. lia. }
  rewrite F. simpl. lia.
Qed.

Section Pagination.
Context {H : Host}.
Variables (key : string) (c : collection) (sortable : list string).
Variable f : filter.
Hypothesis key_ok : (key =? "pagination")%string = false.

(** The metadata of every listing that is answered. *)
Lemma paginate_metadata q r :
  paginate key c sortable q f = Next r ->
  let page := parseInt_or (get "page" q) 1 in
  let limit := parseInt_or (get "limit" q) 10 in
  let totalItems := countDocuments c f in
  status r = 200 /\
  pagination_field "currentPage" r = JNum page /\
  pagination_field "totalPages" r = JNum (ceil_div totalItems limit) /\
  pagination_field "totalItems" r = JNum totalItems /\
  pagination_field "hasNext" r = JBool (page * limit <? totalItems) /\
  pagination_field "hasPrev" r = JBool (page >? 1).
Proof.
  unfold paginate. intros E.
  destruct (parseInt_or (get "limit" q) 10 >? 100); [discriminate |].
  simpl in E.
  destruct (find_page _ _ _ _ _); simpl in E; [| discriminate].
  injection E as <-.
  unfold pagination_field, body_field, json; cbn [body status].
  rewrite get_tail by (rewrite String.eqb_sym; exact key_ok).
  rewrite get_head. repeat split; reflexivity.
Qed.

Lemma paginate_page q p limit :
  parseInt_or (get "limit" q) 10 = limit -> 1 <= limit <= 100 -> 1 <= p ->
  exists r,
    paginate key c sortable (at_page q p) f = Next r /\
    status r = 200 /\
    pagination_field "hasNext" r = JBool (p * limit <? countDocuments c f) /\
    items_count key r = Z.max 0 (Z.min limit (countDocuments c f - (p - 1) * limit)).
Proof.
  intros El Hl Hp. unfold paginate, at_page.
  change (get "limit" (("page", JNum p) :: q)) with (get "limit" q).
  change (get "sortBy" (("page", JNum p) :: q)) with (get "sortBy" q).
  change (get "sortOrder" (("page", JNum p) :: q)) with (get "sortOrder" q).
  change (get "page" (("page", JNum p) :: q)) with (JNum p).
  rewrite El.
  assert (Ep : parseInt_or (JNum p) 1 = p).
  { unfold parseInt_or; simpl. destruct (Z.eqb_spec p 0); lia. }
  rewrite Ep.
  replace (limit >? 100) with false by (symmetry; rewrite Z.gtb_ltb; apply Z.ltb_ge; lia).
  simpl. unfold find_page.
  replace ((p - 1) * limit <? 0) with false by (symmetry; apply Z.ltb_ge; nia).
  replace (limit =? 0) with false by (symmetry; apply Z.eqb_neq; lia).
  cbn [reply_if bind await]. eexists. split; [reflexivity |].
  unfold pagination_field, body_field, items_count, body_field, json; cbn [body status].
  rewrite get_tail by (rewrite String.eqb_sym; exact key_ok).
  rewrite !get_head. repeat split.
  rewrite length_map, length_firstn, length_skipn, sort_docs_length.
  unfold countDocuments.
  assert (0 <= (p - 1) * limit) by nia. lia.
Qed.

(** Walking the pages from [p] on adds up what is left of the matching
    documents. *)
Lemma crawl_from q limit fetch :
  parseInt_or (get "limit" q) 10 = limit -> 1 <= limit <= 100 ->
  (forall p, 1 <= p -> paginate key c sortable (at_page q p) f = Next (fetch p)) ->
  forall fuel p acc,
    1 <= p ->
    acc = (p - 1) * limit -> acc <= countDocuments c f ->
    countDocuments c f - (p - 1) * limit < Z.of_nat fuel * limit ->
    crawl fetch key p acc fuel = Done (countDocuments c f).
Proof.
  intros El Hl Hf. induction fuel as [| fuel IH]; intros p acc Hp Hacc Hle Hfuel.
  - nia.
  - destruct (@paginate_page q p limit El Hl Hp) as (r & Er & St & Hn & Hc).
    rewrite Hf in Er by assumption. injection Er as <-.
    cbn [crawl]. rewrite St. simpl. rewrite Hn, Hc.
    assert (0 <= countDocuments c f) by (unfold countDocuments; lia).
    destruct (Z.ltb_spec (p * limit) (countDocuments c f)).
    + apply IH; nia.
    + f_equal. nia.
Qed.
End Pagination.

Section ListingShape.
Context {H : Host}.
Variables (key : string) (sortable : list string) (internal : response).
Variable build : list (string * value) -> step filter.
Hypothesis key_ok : (key =? "pagination")%string = false.
Hypothesis internal_500 : status internal = 500.
Hypothesis build_never_replies : forall q r, build q <> Reply r.
Hypothesis build_ignores_page : forall q p, build (at_page q p) = build q.

Lemma listing_of_metadata c db q :
  status (fst (listing_of key sortable internal build c db q)) = 200 ->
  exists f,
    build q = Next f /\
    let r := fst (listing_of key sortable internal build c db q) in
    let page := parseInt_or (get "page" q) 1 in
    let limit := parseInt_or (get "limit" q) 10 in
    let totalItems := countDocuments c f in
    pagination_field "currentPage" r = JNum page /\
    pagination_field "totalPages" r = JNum (ceil_div totalItems limit) /\
    pagination_field "totalItems" r = JNum totalItems /\
    pagination_field "hasNext" r = JBool (page * limit <? totalItems) /\
    pagination_field "hasPrev" r = JBool (page >? 1).
Proof.
  unfold listing_of, run_read, run.
  destruct (build q) as [f | r |] eqn:Eb; cbn [bind].
  - destruct (paginate key c sortable q f) as [r | r |] eqn:Ep; cbn [bind fst].
    + intros _. exists f. split; [reflexivity |].
      apply paginate_metadata in Ep; [| assumption]. tauto.
    + unfold paginate in Ep.
      destruct (parseInt_or (get "limit" q) 10 >? 100); cbn in Ep.
      * injection Ep as <-. discriminate.
      * destruct (find_page _ _ _ _ _); discriminate.
    + rewrite internal_500. discriminate.
  - exfalso. exact (build_never_replies Eb).
  - cbn [fst]. rewrite internal_500. discriminate.
Qed.

Lemma listing_of_over_limit c db q f :
  build q = Next f ->
  100 < parseInt_or (get "limit" q) 10 ->
  listing_of key sortable internal build c db q = (invalid_limit, db).
Proof.
  intros Eb Hl. unfold listing_of, run_read. rewrite Eb. cbn [bind].
  unfold paginate.
  replace (parseInt_or (get "limit" q) 10 >? 100) with true
    by (symmetry; apply Z.gtb_lt; lia).
  reflexivity.
Qed.

Lemma listing_of_throws c db q :
  build q = Throw ->
  listing_of key sortable internal build c db q = (internal, db).
Proof. intros Eb. unfold listing_of, run_read. rewrite Eb. reflexivity. Qed.

(** With a limit between 1 and 100, walking the pages from the first one
    ends and the items received are as many as the matching documents. *)
Lemma listing_of_crawl c db q f limit fuel :
  build q = Next f ->
  parseInt_or (get "limit" q) 10 = limit -> 1 <= limit <= 100 ->
  countDocuments c f < Z.of_nat fuel * limit ->
  crawl (fun p => fst (listing_of key sortable internal build c db (at_page q p)))
        key 1 0 fuel
  = Done (countDocuments c f).
Proof.
  intros Eb El Hl Hfuel.
  assert (N : 0 <= countDocuments c f) by (unfold countDocuments; lia).
  apply crawl_from with (sortable := sortable) (f := f) (q := q) (limit := limit);
    try assumption; try lia.
  intros p Hp. unfold listing_of, run_read, run.
  rewrite build_ignores_page, Eb. cbn [bind].
  destruct (@paginate_page _ key c sortable f key_ok q p limit El Hl Hp) as (r & -> & _).
  reflexivity.
Qed.

(** With a negative limit every page that is answered says [hasNext]:
    the walk never ends well. *)
Lemma listing_of_negative_limit c db q fuel :
  parseInt_or (get "limit" q) 10 < 0 ->
  forall p acc total, 1 <= p ->
    crawl (fun p => fst (listing_of key sortable internal build c db (at_page q p)))
          key p acc fuel
    <> Done total.
Proof.
  intros Hl. induction fuel as [| fuel IH]; intros p acc total Hp; cbn [crawl].
  - discriminate.
  - destruct (Z.eqb_spec
                (status (fst (listing_of key sortable internal build c db (at_page q p))))
                200) as [E | E]; [| discriminate].
    destruct (@listing_of_metadata c db (at_page q p) E) as (f & _ & _ & _ & _ & Hn & _).
    rewrite Hn.
    change (get "limit" (at_page q p)) with (get "limit" q).
    change (get "page" (at_page q p)) with (JNum p).
    assert (Ep : parseInt_or (JNum p) 1 = p).
    { unfold parseInt_or; simpl. destruct (Z.eqb_spec p 0); lia. }
    rewrite Ep.
    assert (0 <= countDocuments c f) by (unfold countDocuments; lia).
    replace (p * parseInt_or (get "limit" q) 10 <? countDocuments c f) with true
      by (symmetry; apply Z.ltb_lt; nia).
    apply IH. lia.
Qed.
End ListingShape.

Section FourListings.
Context {H : Host}.

Lemma regexp_filter_never_replies field v r : regexp_filter field v <> Reply r.
Proof.
  unfold regexp_filter. destruct (truthy v); [| discriminate].
  destruct (RegExp_new (toString v)); discriminate.
Qed.

Lemma build_query_never_replies k q r : build_query_of k q <> Reply r.
Proof.
  destruct k; cbn [build_query_of];
    unfold Artists.build_query, Albums.build_query, Songs.build_query,
           Playlists.build_query;
    repeat match goal with
           | |- context [regexp_filter ?f ?v] =>
               let E := fresh "E" in
               destruct (regexp_filter f v) eqn:E; cbn [bind];
               [ | exfalso; exact (regexp_filter_never_replies _ _ E) | ]
           end; discriminate.
Qed.

Lemma build_query_ignores_page k q p : build_query_of k (at_page q p) = build_query_of k q.
Proof. destruct k; reflexivity. Qed.

(** Pagination metadata of a listing that is answered 200: [totalItems]
    counts the documents of the collection that match the query built
    from the request. *)
Lemma listing_metadata k db q :
  status (fst (listing k db q)) = 200 ->
  exists f,
    build_query_of k q = Next f /\
    let r := fst (listing k db q) in
    let page := parseInt_or (get "page" q) 1 in
    let limit := parseInt_or (get "limit" q) 10 in
    let totalItems := countDocuments (collection_of k db) f in
    pagination_field "currentPage" r = JNum page /\
    pagination_field "totalPages" r = JNum (ceil_div totalItems limit) /\
    pagination_field "totalItems" r = JNum totalItems /\
    pagination_field "hasNext" r = JBool (page * limit <? totalItems) /\
    pagination_field "hasPrev" r = JBool (page >? 1).
Proof.
  intros St.
  pose proof (@build_query_never_replies k) as NR.
  destruct k;
    (eapply listing_of_metadata; [ reflexivity | reflexivity | exact NR | exact St ]).
Qed.

(** With a limit between 1 and 100 the pages of a listing, walked from the
    first until [hasNext] is false, carry as many items as [totalItems]. *)
Lemma listing_crawl k db q f limit fuel :
  build_query_of k q = Next f ->
  parseInt_or (get "limit" q) 10 = limit -> 1 <= limit <= 100 ->
  countDocuments (collection_of k db) f < Z.of_nat fuel * limit ->
  crawl (fun p => fst (listing k db (at_page q p))) (key_of k) 1 0 fuel
  = Done (countDocuments (collection_of k db) f).
Proof.
  intros Eb El Hl Hf.
  destruct k;
    (eapply listing_of_crawl with (limit := limit);
     [ reflexivity | reflexivity | exact Eb | exact El | exact Hl | exact Hf ]).
Qed.

(** C1, amended.  Every listing of the four collections that is answered
    200 carries the metadata computed from the page and limit in force
    and from [totalItems], the number of documents that match the query
    built from the request: [totalPages] is the ceiling of
    [totalItems / limit], [hasNext] is [page * limit < totalItems] and
    [hasPrev] is [page > 1].  When the limit in force is between 1 and
    100, the walk over the pages from the first one, for as long as
    [hasNext] holds, ends and has received [totalItems] items. *)
Theorem C1_pagination_of_listings k db q :
  (status (fst (listing k db q)) = 200 ->
   exists f,
     build_query_of k q = Next f /\
     let r := fst (listing k db q) in
     let page := parseInt_or (get "page" q) 1 in
     let limit := parseInt_or (get "limit" q) 10 in
     let totalItems := countDocuments (collection_of k db) f in
     pagination_field "currentPage" r = JNum page /\
     pagination_field "totalPages" r = JNum (ceil_div totalItems limit) /\
     (0 < limit ->
      (ceil_div totalItems limit - 1) * limit < totalItems
      <= ceil_div totalItems limit * limit) /\
     pagination_field "totalItems" r = JNum totalItems /\
     pagination_field "hasNext" r = JBool (page * limit <? totalItems) /\
     pagination_field "hasPrev" r = JBool (page >? 1)) /\
  (forall f limit fuel,
     build_query_of k q = Next f ->
     parseInt_or (get "limit" q) 10 = limit -> 1 <= limit <= 100 ->
     countDocuments (collection_of k db) f < Z.of_nat fuel * limit ->
     crawl (fun p => fst (listing k db (at_page q p))) (key_of k) 1 0 fuel
     = Done (countDocuments (collection_of k db) f)).
Proof.
  split.
  - intros St. destruct (listing_metadata k db q St) as (f & Eb & M).
    exists f. split; [exact Eb |]. cbv zeta in *.
    destruct M as (M1 & M2 & M3 & M4 & M5).
    split; [exact M1 |]. split; [exact M2 |]. split; [| tauto].
    intros Hl. apply (proj1 (ceil_div_spec _ _ Hl) eq_refl).
  - intros f limit fuel. apply listing_crawl.
Qed.

Lemma listing_negative_limit k db q fuel total :
  parseInt_or (get "limit" q) 10 < 0 ->
  crawl (fun p => fst (listing k db (at_page q p))) (key_of k) 1 0 fuel <> Done total.
Proof.
  intros Hl.
  pose proof (@build_query_never_replies k) as NR.
  destruct k;
    (eapply listing_of_negative_limit;
     [ reflexivity | reflexivity | exact NR | exact Hl | lia ]).
Qed.
End FourListings.


Lemma C1_pagination_of_listings_witness :
  crawl (fun p => fst (listing Song library (at_page [("limit", JStr "1")] p)))
        "songs" 1 0 3
  = Done 2.
Proof.
  exact (proj2 (@C1_pagination_of_listings frag_host Song library [("limit", JStr "1")])
           [] 1 3%nat eq_refl eq_refl ltac:(lia) ltac:(vm_compute; reflexivity)).
Defined.

(** C1 fails on the code at GET /artists?limit=-5 on a collection of one
    artist.  Only limits above 100 are refused, so the request is answered
    200 with the one artist, [totalItems] 1 and [hasNext] true
    ([1 * -5 < 1]); the next page asks the store to skip -5 documents and
    is answered 500; no walk over the pages ends with [hasNext] false. *)
Lemma C1_counterexample :
  let page p := fst (Artists.listing one_artist (at_page [("limit", JStr "-5")] p)) in
  status (page 1) = 200 /\
  items_count "artists" (page 1) = 1 /\
  pagination_field "totalItems" (page 1) = JNum 1 /\
  pagination_field "hasNext" (page 1) = JBool true /\
  status (page 2) = 500 /\
  forall fuel total, crawl page "artists" 1 0 fuel <> Done total.
Proof.
  cbv zeta. repeat split; try (vm_compute; reflexivity).
  intros fuel total.
  apply (@listing_negative_limit frag_host Artist one_artist [("limit", JStr "-5")]).
  vm_compute. reflexivity.
Qed.

(** ** Listings: the limit check *)

Section ListingLimit.
Context {H : Host}.

Lemma regexp_filter_compiles field v :
  (compiles v = true -> exists f, regexp_filter field v = Next f) /\
  (compiles v = false -> regexp_filter field v = Throw).
Proof.
  unfold compiles, regexp_filter. destruct (truthy v); cbn.
  - destruct (RegExp_new (toString v)); cbn; split; eauto; discriminate.
  - split; eauto; discriminate.
Qed.

Lemma build_query_compiles k q :
  (filters_compile k q = true -> exists f, build_query_of k q = Next f) /\
  (filters_compile k q = false -> build_query_of k q = Throw).
Proof.
  unfold filters_compile.
  destruct k; cbn [regexp_params forallb build_query_of];
    unfold Artists.build_query, Albums.build_query, Songs.build_query,
           Playlists.build_query;
    repeat match goal with
           | |- context [regexp_filter ?f (get ?p q)] =>
               let A := fresh "A" in let B := fresh "B" in
               destruct (regexp_filter_compiles f (get p q)) as [A B];
               destruct (compiles (get p q));
               [ destruct (A eq_refl) as [? ->]; clear A B
               | rewrite (B eq_refl); clear A B ];
               cbn [bind andb]
           end;
    split; intros; try discriminate; eauto.
Qed.

(** C2, amended.  A listing of any of the four collections whose filter
    parameters compile and whose parsed limit exceeds 100 is answered
    400 "Invalid limit" whatever the collection holds: the response
    carries no items, and the limit is not clamped. *)
Theorem C2_limit_above_100_refused k db q n :
  filters_compile k q = true ->
  parseInt (get "limit" q) = Int n -> 100 < n ->
  listing k db q = (invalid_limit, db) /\
  status invalid_limit = 400 /\
  body_field "error" invalid_limit = JStr "Invalid limit" /\
  body_field (key_of k) invalid_limit = JUndefined.
Proof.
  intros Hc Hp Hn.
  destruct (proj1 (build_query_compiles k q) Hc) as [f Ef].
  assert (Hl : 100 < parseInt_or (get "limit" q) 10).
  { unfold parseInt_or. rewrite Hp. destruct (Z.eqb_spec n 0); lia. }
  split; [| destruct k; repeat split; reflexivity].
  destruct k; (eapply listing_of_over_limit; [exact Ef | exact Hl]).
Qed.

(** When a filter parameter does not compile, the handler throws before
    it looks at the limit. *)
Lemma listing_bad_filter k db q :
  filters_compile k q = false ->
  status (fst (listing k db q)) = 500 /\ snd (listing k db q) = db.
Proof.
  intros Hc. pose proof (proj2 (build_query_compiles k q) Hc) as Ef.
  destruct k; cbn [listing build_query_of] in *;
    unfold Artists.listing, Albums.listing, Songs.listing, Playlists.listing, run_read;
    rewrite Ef; split; reflexivity.
Qed.
End ListingLimit.

Lemma C2_limit_above_100_refused_witness :
  listing Playlist library [("creator", JStr "me"); ("limit", JStr "150")]
  = (invalid_limit, library).
Proof.
  exact (proj1 (@C2_limit_above_100_refused frag_host Playlist library
                  [("creator", JStr "me"); ("limit", JStr "150")] 150
                  eq_refl eq_refl ltac:(lia))).
Defined.

(** C2 fails on the code at GET /{collection}?genre=[&limit=150 (creator=[
    for playlists) on an empty database.  Each handler compiles its filter
    parameters before it looks at the limit; [new RegExp("[", "i")] throws,
    and the answer is 500 instead of the 400 "Invalid limit" that the same
    request without the filter receives. *)
Lemma C2_counterexample :
  parseInt (JStr "150") = Int 150 /\
  listing Artist empty_db [("limit", JStr "150")] = (invalid_limit, empty_db) /\
  status (fst (listing Artist empty_db [("genre", JStr "["); ("limit", JStr "150")])) = 500 /\
  status (fst (listing Album empty_db [("genre", JStr "["); ("limit", JStr "150")])) = 500 /\
  status (fst (listing Song empty_db [("genre", JStr "["); ("limit", JStr "150")])) = 500 /\
  status (fst (listing Playlist empty_db [("creator", JStr "["); ("limit", JStr "150")])) = 500.
Proof. repeat split; vm_compute; reflexivity. Qed.

(** ** Create: validation, then references, then the insert *)




Lemma has_id_true o d : has_id o d = true <-> o = Some (_id d).
Proof.
  unfold has_id. destruct o as [i |]; [| split; discriminate].
  rewrite String.eqb_eq. split; [intros -> | intros [= ->]]; reflexivity.
Qed.



Section CreateOrder.
Context {H : Host}.


Lemma each_song_valid i l : Playlists.each_song i (List.filter ObjectId_isValid l) = [].
Proof.
  revert i. induction l as [| x l IH]; intros i; cbn [List.filter Playlists.each_song].
  - reflexivity.
  - destruct (ObjectId_isValid x) eqn:V; [| apply IH].
    cbn [Playlists.each_song]. rewrite V. cbn. apply IH.
Qed.

Lemma filter_idempotent {A : Type} (p : A -> bool) l :
  List.filter p (List.filter p l) = List.filter p l.
Proof.
  induction l as [| x l IH]; cbn [List.filter]; [reflexivity |].
  destruct (p x) eqn:E; cbn [List.filter]; [rewrite E, IH |]; auto.
Qed.




End CreateOrder.

Section CreateOrderMain.
Context {H : Host}.







End CreateOrderMain.



(** ** Deleting an artist *)

Section DeleteArtist.
Context {H : Host}.

Lemma count_positive c f d :
  In d c -> matches f d = true -> 0 < countDocuments c f.
Proof.
  intros Hin Hm. unfold countDocuments, find.
  assert (In d (List.filter (matches f) c)) by (apply filter_In; auto).
  destruct (List.filter (matches f) c); [contradiction | cbn [List.length]; lia].
Qed.

(** C4.  DELETE /artists/:id by an authorized caller, with a well-formed
    id that some album carries as its artist_id: the answer is 400 and
    the database (artists, albums and the rest) is left as it was. *)
Theorem C4_delete_artist_with_albums e db id a :
  authorized e = true ->
  ObjectId_isValid (JStr id) = true ->
  In a (albums db) -> get "artist_id" (doc_fields a) = JStr id ->
  status (fst (Artists.delete e db id)) = 400 /\
  body_field "error" (fst (Artists.delete e db id)) = JStr "Cannot delete artist" /\
  snd (Artists.delete e db id) = db.
Proof.
  intros Ha Hv Hin Hid. unfold Artists.delete.
  rewrite authorized_requireAuth by assumption.
  rewrite Hv. cbn [negb reply_if bind].
  assert (P : 0 < countDocuments (albums db) [("artist_id", Equals (JStr id))]).
  { apply count_positive with (d := a); [assumption |].
    unfold matches. cbn [forallb fst snd matches_cond]. rewrite Hid.
    cbn [field_eqb scalar_eqb]. rewrite String.eqb_refl. reflexivity. }
  replace (countDocuments (albums db) [("artist_id", Equals (JStr id))] >? 0) with true
    by (symmetry; apply Z.gtb_lt; lia).
  cbn [reply_if bind run fst snd]. repeat split; reflexivity.
Qed.
End DeleteArtist.

Lemma C4_delete_artist_with_albums_witness :
  let db := set_albums one_artist [album_doc id2 "T" id1] in
  status (fst (Artists.delete (sample_env id3) db id1)) = 400 /\
  body_field "error" (fst (Artists.delete (sample_env id3) db id1)) = JStr "Cannot delete artist" /\
  snd (Artists.delete (sample_env id3) db id1) = db.
Proof.
  apply (@C4_delete_artist_with_albums frag_host (sample_env id3)
           (set_albums one_artist [album_doc id2 "T" id1]) id1 (album_doc id2 "T" id1)).
  - reflexivity.
  - reflexivity.
  - left. reflexivity.
  - reflexivity.
Defined.

(** ** The validators *)

Section Validators.
Context {H : Host}.






(** A track number that does not parse is NaN, which is falsy: the rule
    on the track number reports nothing for it. *)
Lemma track_number_rule_skips_falsy t :
  truthy (Songs.track_value t) = false -> Songs.track_number_errors t = [].
Proof. unfold Songs.track_number_errors. intros ->. reflexivity. Qed.

(** Each rule of [validateAlbum] contributes its message whatever the other
    fields hold: a missing required field is always named. *)
Lemma validateAlbum_names_missing now a :
  (truthy (Albums.title a) = false ->
   In "Album title is required and must be a non-empty string" (Albums.validateAlbum now a)) /\
  (truthy (Albums.artist_id a) = false ->
   In "Valid artist ID is required" (Albums.validateAlbum now a)) /\
  (truthy (Albums.release_date a) = false ->
   In "Release date is required" (Albums.validateAlbum now a)) /\
  (truthy (Albums.genre a) = false ->
   In "Genre is required and must be a non-empty string" (Albums.validateAlbum now a)) /\
  (Albums.track_count a = NotANumber ->
   In "Valid track count is required (minimum 1)" (Albums.validateAlbum now a)) /\
  (Albums.duration a = NotANumber ->
   In "Valid duration in minutes is required (minimum 1)" (Albums.validateAlbum now a)).
Proof.
  unfold Albums.validateAlbum. repeat split; intros E; rewrite !in_app_iff.
  - left. destruct (Albums.title a); try (left; reflexivity).
    unfold required_string. rewrite E. left. reflexivity.
  - right; left. unfold required_id. rewrite E. left. reflexivity.
  - right; right; left. unfold Albums.release_date_errors. rewrite E. left. reflexivity.
  - do 3 right; left. destruct (Albums.genre a); try (left; reflexivity).
    unfold required_string. rewrite E. left. reflexivity.
  - do 4 right; left. rewrite E. left. reflexivity.
  - do 5 right; left. rewrite E. left. reflexivity.
Qed.

(** C5, at the body of PUT /artists/:id whose name is empty and whose
    members are [[5]].  The record breaks the rule on the name and the
    rule on member 1, and the loop over the members has recorded its
    message; then the duplicate check calls [trim] on the number, the
    validator throws, and the request is answered 500 with no details
    instead of 400 with the two messages. *)
Theorem C5_validateArtist_throws_on_member id :
  let artist := Artists.raw bad_members_body in
  required_string (Artists.name artist) 100
    "Artist name is required and must be a non-empty string"
    "Artist name must be less than 100 characters"
  = ["Artist name is required and must be a non-empty string"] /\
  each_entry "Member " " name must be less than 100 characters" 100 0 [JNum 5]
  = ["Member 1 must be a non-empty string"] /\
  Artists.validateArtist 2023 artist = Throw /\
  Artists.update (sample_env id5) library id bad_members_body
  = (if ObjectId_isValid (JStr id) then internal_error "Failed to update artist"
     else invalid_id "artist", library).
Proof.
  cbv zeta. repeat split.
  unfold Artists.update.
  rewrite authorized_requireAuth by reflexivity.
  destruct (ObjectId_isValid (JStr id)); reflexivity.
Qed.
End Validators.

(** A second input on which a validator differs from the field contract:
    POST /songs with [track_number: "0"].  The string is truthy, so it is
    parsed; the number 0 is falsy, so the rule on the track number is
    skipped: no message, and the song is stored with track number 0. *)
Lemma validateSong_accepts_track_zero :
  let b := song_body "Z" idT idA (JStr "0") in
  let r := Songs.create (sample_env id5) library b in
  Songs.track_number (Songs.sanitize b) = Some (Int 0) /\
  Songs.validateSong (Songs.sanitize b) = [] /\
  status (fst r) = 201 /\
  option_map (fun d => get "track_number" (doc_fields d)) (newest (songs (snd r)))
  = Some (JNum 0).
Proof. repeat split; vm_compute; reflexivity. Qed.

(** ** The songs of a playlist *)

Lemma map_step_next {A B : Type} (f : A -> step B) (g : A -> B) l :
  (forall x, In x l -> f x = Next (g x)) -> map_step f l = Next (map g l).
Proof.
  induction l as [| x l IH]; intros Hf; cbn [map_step map]; [reflexivity |].
  rewrite (Hf x (or_introl eq_refl)). cbn [bind].
  rewrite IH by (intros; apply Hf; right; assumption). reflexivity.
Qed.

Lemma find_filter_implied {A : Type} (p q : A -> bool) l :
  (forall x, p x = true -> q x = true) ->
  List.find p (List.filter q l) = List.find p l.
Proof.
  intros Hpq. induction l as [| x l IH]; cbn [List.filter List.find]; [reflexivity |].
  destruct (q x) eqn:Q; cbn [List.find].
  - rewrite IH. reflexivity.
  - destruct (p x) eqn:P; [| exact IH].
    rewrite (Hpq x P) in Q. discriminate.
Qed.

(** When the ids stored in the playlist are written as the store prints
    them, GET /playlists/:id/songs answers with the songs in the order of
    the stored ids, an id that denotes no song being skipped. *)
Lemma songs_of_canonical db id p ids :
  ObjectId_isValid (JStr id) = true ->
  findById (playlists db) (ObjectId_new (JStr id)) = Some p ->
  get "songs" (doc_fields p) = JArr (map JStr ids) ->
  Forall canonical ids ->
  Playlists.songs_of db id
  = ({| status := 200;
        body := JArr (map doc_json
                        (Playlists.defined
                           (map (fun s => findById (songs db) (Some s)) ids))) |},
     db).
Proof.
  intros V F S C. unfold Playlists.songs_of, run_read.
  rewrite V. cbn [negb reply_if bind]. rewrite F, S.
  destruct ids as [| s0 ids']; [reflexivity |].
  set (ids := s0 :: ids') in *. cbn [map]. fold (map JStr ids').
  change (JStr s0 :: map JStr ids') with (map JStr ids).
  assert (E1 : map_step Playlists.ObjectId_ctor (map JStr ids) = Next (map Some ids)).
  { rewrite <- (map_map JStr (fun v => match v with JStr s => Some s | _ => None end)).
    apply map_step_next. intros x Hx. apply in_map_iff in Hx as (s & <- & Hs).
    rewrite Forall_forall in C. destruct (C s Hs) as [Hh Hl].
    unfold Playlists.ObjectId_ctor, ObjectId_isValid, ObjectId_new.
    rewrite Hh, Hl. reflexivity. }
  rewrite E1. cbn [bind].
  assert (E2 : map_step (Playlists.find_song (find_in (songs db) (map Some ids)))
                        (map JStr ids)
               = Next (map (fun s => findById (songs db) (Some s)) ids)).
  { rewrite <- (map_map JStr (fun v => match v with
                                       | JStr s => findById (songs db) (Some s)
                                       | _ => None
                                       end)).
    apply map_step_next. intros x Hx. apply in_map_iff in Hx as (s & <- & Hs).
    assert (G : List.find (fun song => (_id song =? s)%string)
                          (find_in (songs db) (map Some ids))
                = findById (songs db) (Some s)).
    { unfold find_in, findById. apply find_filter_implied.
      intros d Hd. apply existsb_exists. exists (Some s).
      split; [apply in_map; assumption | exact Hd]. }
    unfold Playlists.find_song.
    destruct (find_in (songs db) (map Some ids)) eqn:Efs.
    - rewrite <- G. reflexivity.
    - cbn [Playlists.id_string stringifiable toString bind]. rewrite G. reflexivity. }
  rewrite E2. reflexivity.
Qed.

(** C6, at a playlist whose [songs] holds the identifier of an existing
    song written with upper-case hexadecimal digits.  POST /playlists
    accepts and stores the string as sent (it is a valid identifier and
    the song exists); GET /playlists/:id/songs finds the song with [$in]
    but then compares [song._id.toString()], which is lower-case, with the
    stored string, and drops the song: the answer is 200 with an empty
    array although the only id of the playlist resolves. *)
Theorem C6_resolving_id_dropped :
  let created := Playlists.create (sample_env id5) library
                   (playlist_body "Upper" "me" [JStr idS_upper]) in
  let db := snd created in
  status (fst created) = 201 /\
  option_map (fun d => get "songs" (doc_fields d)) (findById (playlists db) (Some id5))
  = Some (JArr [JStr idS_upper]) /\
  option_map _id (findById (songs db) (ObjectId_new (JStr idS_upper))) = Some idS /\
  Playlists.songs_of db id5 = ({| status := 200; body := JArr [] |}, db).
Proof. repeat split; vm_compute; reflexivity. Qed.

(** ** Duplicate detection: on create, not on update *)

Section Duplicates.
Context {H : Host}.




End Duplicates.



(** ** Adding a song to a playlist and removing it *)

Lemma get_set_field_same k v o : get k (set_field k v o) = v.
Proof.
  induction o as [| [k' v'] o IH]; cbn [set_field get].
  - rewrite String.eqb_refl. reflexivity.
  - destruct (String.eqb_spec k k') as [-> | N]; cbn [get].
    + rewrite String.eqb_refl. reflexivity.
    + destruct (String.eqb_spec k k'); [contradiction | exact IH].
Qed.

Lemma get_set_field_other k k' v o :
  (k =? k')%string = false -> get k (set_field k' v o) = get k o.
Proof.
  intros N. induction o as [| [k0 v0] o IH]; cbn [set_field get].
  - rewrite N. reflexivity.
  - destruct (String.eqb_spec k' k0) as [-> | N0]; cbn [get].
    + rewrite N. reflexivity.
    + destruct (k =? k0)%string; [reflexivity | exact IH].
Qed.

Lemma updateOne_found c o u d fs :
  findById c o = Some d -> u (doc_fields d) = Some fs ->
  exists c',
    updateOne c o u = Some (c', 1) /\
    findById c' o = Some {| _id := _id d; doc_fields := fs |}.
Proof.
  unfold findById. induction c as [| x c IH]; cbn [List.find updateOne]; [discriminate |].
  intros F U. destruct (has_id o x) eqn:E.
  - injection F as ->. rewrite U. eexists. split; [reflexivity |].
    cbn [List.find]. unfold has_id in *. cbn [_id]. rewrite E. reflexivity.
  - destruct (IH F U) as (c' & -> & F'). eexists. split; [reflexivity |].
    cbn [List.find]. rewrite E. exact F'.
Qed.

Section Membership.

Lemma pull_then_stamp x t o l :
  get "songs" o = JArr l ->
  exists fs,
    and_then (op_pull "songs" (JStr x) o) (op_set [("updatedAt", bson_date t)]) = Some fs /\
    get "songs" fs = JArr (pulled x l).
Proof.
  intros E. unfold op_pull. rewrite E. cbn [and_then op_set set_fields fold_left fst snd].
  eexists. split; [reflexivity |].
  unfold set_fields. cbn [fold_left fst snd].
  rewrite get_set_field_other by reflexivity. apply get_set_field_same.
Qed.

Lemma remove_song_once e db id songId p l :
  authorized e = true ->
  ObjectId_isValid (JStr id) = true -> ObjectId_isValid (JStr songId) = true ->
  findById (playlists db) (ObjectId_new (JStr id)) = Some p ->
  get "songs" (doc_fields p) = JArr l ->
  status (fst (Playlists.remove_song e db id songId)) = 200 /\
  exists p',
    findById (playlists (snd (Playlists.remove_song e db id songId)))
             (ObjectId_new (JStr id)) = Some p' /\
    get "songs" (doc_fields p') = JArr (pulled songId l).
Proof.
  intros A V1 V2 F S. unfold Playlists.remove_song.
  rewrite authorized_requireAuth by assumption.
  rewrite V1, V2. cbn [negb reply_if bind].
  destruct (pull_then_stamp songId (now e) (doc_fields p) S) as (fs & U & G).
  destruct (@updateOne_found (playlists db) (ObjectId_new (JStr id))
              (fun o => and_then (op_pull "songs" (JStr songId) o)
                          (op_set [("updatedAt", bson_date (now e))]))
              p fs F U) as (c' & -> & F').
  cbn [await bind snd fst Z.eqb reply_if run status json playlists set_playlists].
  split; [reflexivity |]. eexists. split; [exact F' | exact G].
Qed.

Lemma pulled_twice x l : pulled x (pulled x l) = pulled x l.
Proof. apply filter_idempotent. Qed.

Lemma add_song_present e db id songId p l :
  authorized e = true ->
  ObjectId_isValid (JStr id) = true -> ObjectId_isValid (JStr songId) = true ->
  findById (playlists db) (ObjectId_new (JStr id)) = Some p ->
  get "songs" (doc_fields p) = JArr l -> In (JStr songId) l ->
  Playlists.add_song e db id songId
  = (if resolves (songs db) (JStr songId)
     then error_json 409 "Song already in playlist" "This song is already in the playlist"
     else error_json 404 "Song not found" "The specified song does not exist",
     db).
Proof.
  intros A V1 V2 F S Hin. unfold Playlists.add_song, resolves.
  rewrite authorized_requireAuth by assumption.
  rewrite V1, V2. cbn [negb reply_if bind].
  destruct (found (findById (songs db) (ObjectId_new (JStr songId))));
    cbn [negb reply_if bind run]; [| reflexivity].
  rewrite F, S. unfold Playlists.already_in. cbn [truthy negb].
  replace (existsb (scalar_eqb (JStr songId)) l) with true.
  - reflexivity.
  - symmetry. apply existsb_exists. exists (JStr songId). split; [assumption |].
    cbn. apply String.eqb_refl.
Qed.

(** C8, amended.  For an authorized caller, well-formed ids and an
    existing playlist whose songs field is an array: DELETE
    /playlists/:id/songs/:songId twice leaves songs as one removal does,
    and both calls are answered 200; PUT /playlists/:id/songs/:songId
    with an id already in songs leaves the database as it was and is
    answered 409 when the song exists and 404 when it does not. *)
Theorem C8_remove_idempotent_add_conflict e1 e2 db id songId p l :
  authorized e1 = true -> authorized e2 = true ->
  ObjectId_isValid (JStr id) = true -> ObjectId_isValid (JStr songId) = true ->
  findById (playlists db) (ObjectId_new (JStr id)) = Some p ->
  get "songs" (doc_fields p) = JArr l ->
  let once := Playlists.remove_song e1 db id songId in
  let twice := Playlists.remove_song e2 (snd once) id songId in
  (status (fst once) = 200 /\ status (fst twice) = 200 /\
   songs_field (snd once) id = Some (JArr (pulled songId l)) /\
   songs_field (snd twice) id = songs_field (snd once) id) /\
  (In (JStr songId) l ->
   snd (Playlists.add_song e1 db id songId) = db /\
   status (fst (Playlists.add_song e1 db id songId))
   = if resolves (songs db) (JStr songId) then 409 else 404).
Proof.
  intros A1 A2 V1 V2 F S once twice. split.
  - destruct (@remove_song_once e1 db id songId p l A1 V1 V2 F S) as (St1 & p1 & F1 & S1).
    fold once in St1, F1.
    destruct (@remove_song_once e2 (snd once) id songId p1 _ A2 V1 V2 F1 S1) as (St2 & p2 & F2 & S2).
    fold twice in St2, F2.
    unfold songs_field. rewrite F1, F2. cbn [option_map].
    rewrite S1, S2, pulled_twice. repeat split; assumption.
  - intros Hin. rewrite (@add_song_present e1 db id songId p l A1 V1 V2 F S Hin).
    destruct (resolves (songs db) (JStr songId)); split; reflexivity.
Qed.
End Membership.

Lemma C8_remove_idempotent_add_conflict_witness :
  let once := Playlists.remove_song (sample_env id5) library idQ idS in
  let twice := Playlists.remove_song (sample_env id5) (snd once) idQ idS in
  (status (fst once) = 200 /\ status (fst twice) = 200 /\
   songs_field (snd once) idQ = Some (JArr (pulled idS [JStr idS; JStr idR])) /\
   songs_field (snd twice) idQ = songs_field (snd once) idQ) /\
  (In (JStr idS) [JStr idS; JStr idR] ->
   snd (Playlists.add_song (sample_env id5) library idQ idS) = library /\
   status (fst (Playlists.add_song (sample_env id5) library idQ idS))
   = if resolves (songs library) (JStr idS) then 409 else 404).
Proof.
  apply (@C8_remove_idempotent_add_conflict (sample_env id5) (sample_env id5)
           library idQ idS (playlist_doc idQ "Q" "me" [JStr idS; JStr idR])
           [JStr idS; JStr idR]); reflexivity.
Defined.

(** C8 fails on the code: the song "S" has been deleted while the playlist
    "P" still holds its id; PUT /playlists/P/songs/S finds the id already
    present, yet the answer is 404 "Song not found", not 409. *)
Lemma C8_counterexample :
  songs_field dangling idP = Some (JArr [JStr idS]) /\
  Playlists.add_song (sample_env id5) dangling idP idS
  = (error_json 404 "Song not found" "The specified song does not exist", dangling).
Proof. split; vm_compute; reflexivity. Qed.

(** ** The duplicate check is a regular-expression match *)

Section DuplicateCheck.
Context {H : Host}.


End DuplicateCheck.



(** ** POST /songs and a falsy track number *)

Section FalsyTrackNumber.
Context {H : Host}.



End FalsyTrackNumber.


(** * Further properties of the handlers *)

(** ** The store: deleting and updating one document *)

Lemma findById_app c1 c2 o :
  findById (c1 ++ c2) o =
  match findById c1 o with Some d => Some d | None => findById c2 o end.
Proof.
  unfold findById. induction c1 as [| x c1 IH]; cbn [app List.find]; [reflexivity |].
  destruct (has_id o x); [reflexivity | exact IH].
Qed.

Lemma findById_none c o :
  findById c o = None <-> forall d, In d c -> has_id o d = false.
Proof.
  unfold findById. split.
  - intros E d Hd. exact (find_none _ _ E d Hd).
  - intros Hn. destruct (List.find (has_id o) c) as [d |] eqn:E; [| reflexivity].
    apply find_some in E as [Hin Hd]. rewrite (Hn d Hin) in Hd. discriminate.
Qed.

Lemma findById_some c o d :
  findById c o = Some d ->
  exists l1 l2, c = l1 ++ d :: l2 /\ has_id o d = true /\ findById l1 o = None.
Proof.
  unfold findById. induction c as [| x c IH]; cbn [List.find]; [discriminate |].
  destruct (has_id o x) eqn:E.
  - intros [= ->]. exists [], c. repeat split; assumption.
  - intros F. destruct (IH F) as (l1 & l2 & -> & Hd & Hn).
    exists (x :: l1), l2. repeat split; [assumption |].
    cbn [List.find]. rewrite E. exact Hn.
Qed.

(** [deleteOne] takes out the first document that carries the identifier
    and nothing else; it reports 0 and leaves the collection as it is when
    there is none. *)
Lemma deleteOne_spec c o :
  match findById c o with
  | Some d =>
      exists l1 l2, c = l1 ++ d :: l2 /\ findById l1 o = None /\
                    deleteOne c o = (l1 ++ l2, 1)
  | None => deleteOne c o = (c, 0)
  end.
Proof.
  unfold findById. induction c as [| x c IH]; cbn [List.find deleteOne]; [reflexivity |].
  destruct (has_id o x) eqn:E.
  - exists [], c. repeat split.
  - destruct (List.find (has_id o) c) as [d |].
    + destruct IH as (l1 & l2 & -> & Hn & ->).
      exists (x :: l1), l2. repeat split.
      unfold findById in *. cbn [List.find]. rewrite E. exact Hn.
    + rewrite IH. reflexivity.
Qed.

(** When identifiers are unique, the identifier of a deleted document
    denotes nothing afterwards. *)
Lemma deleteOne_gone c o :
  NoDup (map _id c) -> findById (fst (deleteOne c o)) o = None.
Proof.
  intros Nd. pose proof (deleteOne_spec c o) as S.
  destruct (findById c o) as [d |] eqn:F.
  - destruct S as (l1 & l2 & -> & Hn & ->). cbn [fst].
    rewrite findById_app, Hn. apply findById_none. intros x Hx.
    destruct (has_id o x) eqn:E; [exfalso | reflexivity].
    apply findById_some in F as (l1' & l2' & _ & Hd & _).
    apply has_id_true in E. apply has_id_true in Hd.
    assert (Eid : _id x = _id d) by congruence.
    rewrite map_app in Nd. cbn [map] in Nd.
    apply NoDup_remove_2 in Nd. apply Nd. apply in_or_app. right.
    rewrite <- Eid. apply in_map. exact Hx.
  - rewrite S. exact F.
Qed.


(** ** The gate in front of the write handlers *)

Ltac gate_closed D U w :=
  destruct w as [wk wb | wk wid wb | wk wid | wid ws | wid ws];
  try destruct wk; cbn [handle create update delete];
  unfold Artists.create, Albums.create, Songs.create, Playlists.create,
         Artists.update, Albums.update, Songs.update, Playlists.update,
         Artists.delete, Albums.delete, Songs.delete, Playlists.delete,
         Playlists.add_song, Playlists.remove_song, requireAuth;
  cbn [isDemoMode has_user now current_year fresh_id];
  rewrite ?D, ?U; reflexivity.

(** A request that does not pass [requireAuth] is answered 401 by every
    write handler, and the database is left as it was. *)
Theorem unauthenticated_write_refused {H : Host} e db w :
  authorized e = false -> handle e db w = (unauthorized, db).
Proof.
  unfold authorized. intros A. apply orb_false_elim in A as [D U].
  gate_closed D U w.
Qed.

Lemma unauthenticated_write_refused_witness :
  handle {| now := 0; current_year := 2023; fresh_id := id5;
            isDemoMode := false; has_user := false |}
         library (Delete Artist idB)
  = (unauthorized, library).
Proof. apply (@unauthenticated_write_refused frag_host). reflexivity. Defined.

(** ** Creating a record and reading it back *)

Section CreateShape.
Context {H : Host}.

Lemma collection_of_set k k' db c :
  collection_of k' (set_collection k db c) =
  match k, k' with
  | Artist, Artist | Album, Album | Song, Song | Playlist, Playlist => c
  | _, _ => collection_of k' db
  end.
Proof. destruct k, k'; reflexivity. Qed.



Lemma get_one_missing k db id :
  ObjectId_isValid (JStr id) = true ->
  findById (collection_of k db) (ObjectId_new (JStr id)) = None ->
  status (fst (get_one k db id)) = 404 /\ snd (get_one k db id) = db.
Proof.
  intros V F.
  destruct k; cbn [get_one collection_of] in *;
    unfold Artists.get_one, Albums.get_one, Songs.get_one, Playlists.get_one, run_read;
    rewrite V; cbn [negb reply_if bind]; rewrite F; split; reflexivity.
Qed.

End CreateShape.


(** ** Deleting a record *)

Section DeleteShape.
Context {H : Host}.

Lemma delete_cases k e db id :
  authorized e = true ->
  ObjectId_isValid (JStr id) = true ->
  unreferenced k db id ->
  delete k e db id =
  (if snd (deleteOne (collection_of k db) (ObjectId_new (JStr id))) =? 0
   then fst (delete k e db id)
   else json 200 [("message",
                   JStr (cat (match k with
                              | Artist => "Artist" | Album => "Album"
                              | Song => "Song" | Playlist => "Playlist"
                              end) " deleted successfully"))],
   if snd (deleteOne (collection_of k db) (ObjectId_new (JStr id))) =? 0
   then db
   else set_collection k db
          (fst (deleteOne (collection_of k db) (ObjectId_new (JStr id))))) /\
  ((snd (deleteOne (collection_of k db) (ObjectId_new (JStr id))) =? 0) = true ->
   status (fst (delete k e db id)) = 404).
Proof.
  intros A V U.
  destruct k; cbn [delete collection_of set_collection];
    unfold Artists.delete, Albums.delete, Songs.delete, Playlists.delete;
    rewrite (authorized_requireAuth _ _ _ A); rewrite V; cbn [negb reply_if bind];
    try (rewrite (U eq_refl); cbn [Z.gtb Z.compare reply_if bind]);
    destruct (snd (deleteOne _ _) =? 0) eqn:E; cbn [reply_if bind run fst snd];
    split; try reflexivity; intros; try discriminate; reflexivity.
Qed.

Lemma delete_absent k e db id :
  authorized e = true ->
  ObjectId_isValid (JStr id) = true ->
  unreferenced k db id ->
  findById (collection_of k db) (ObjectId_new (JStr id)) = None ->
  status (fst (delete k e db id)) = 404 /\ snd (delete k e db id) = db.
Proof.
  intros A V U F. destruct (delete_cases e A V U) as [D D404].
  pose proof (deleteOne_spec (collection_of k db) (ObjectId_new (JStr id))) as S.
  rewrite F in S. rewrite S in D, D404. cbn [fst snd Z.eqb] in D, D404. split.
  - exact (D404 eq_refl).
  - rewrite D. reflexivity.
Qed.

(** DELETE on an existing record takes the first document with that
    identifier out of its collection, keeps the order of the others and
    does not touch the other three collections; on an absent record it
    is answered 404 and changes nothing.  (For an artist: when no album
    refers to the artist.) *)
Theorem delete_removes_first k e db id :
  authorized e = true ->
  ObjectId_isValid (JStr id) = true ->
  unreferenced k db id ->
  match findById (collection_of k db) (ObjectId_new (JStr id)) with
  | Some d =>
      exists l1 l2,
        collection_of k db = l1 ++ d :: l2 /\
        findById l1 (ObjectId_new (JStr id)) = None /\
        status (fst (delete k e db id)) = 200 /\
        snd (delete k e db id) = set_collection k db (l1 ++ l2)
  | None =>
      status (fst (delete k e db id)) = 404 /\ snd (delete k e db id) = db
  end.
Proof.
  intros A V U. destruct (delete_cases e A V U) as [D D404].
  pose proof (deleteOne_spec (collection_of k db) (ObjectId_new (JStr id))) as S.
  destruct (findById (collection_of k db) (ObjectId_new (JStr id))) as [d |] eqn:F.
  - destruct S as (l1 & l2 & E & Hn & S). exists l1, l2.
    rewrite S in D. cbn [fst snd Z.eqb] in D. rewrite D. cbn [fst snd].
    repeat split; assumption.
  - apply delete_absent; assumption.
Qed.

(** With unique identifiers, a deleted record is gone: reading it is
    answered 404, and so is deleting it a second time. *)
Theorem delete_then_gone k e e' db id :
  authorized e = true -> authorized e' = true ->
  ObjectId_isValid (JStr id) = true ->
  unreferenced k db id ->
  NoDup (map _id (collection_of k db)) ->
  let db' := snd (delete k e db id) in
  status (fst (get_one k db' id)) = 404 /\
  status (fst (delete k e' db' id)) = 404 /\
  snd (delete k e' db' id) = db'.
Proof.
  intros A A' V U Nd db'.
  assert (G : findById (collection_of k db') (ObjectId_new (JStr id)) = None
              /\ unreferenced k db' id).
  { subst db'. destruct (delete_cases e A V U) as [D _]. rewrite D. cbn [snd].
    pose proof (@deleteOne_gone (collection_of k db) (ObjectId_new (JStr id)) Nd) as Gone.
    pose proof (deleteOne_spec (collection_of k db) (ObjectId_new (JStr id))) as S.
    destruct (snd (deleteOne (collection_of k db) (ObjectId_new (JStr id))) =? 0) eqn:E.
    - split; [| exact U].
      destruct (findById (collection_of k db) (ObjectId_new (JStr id))) as [d |];
        [| reflexivity].
      destruct S as (l1 & l2 & _ & _ & S). rewrite S in E. discriminate.
    - split.
      + rewrite collection_of_set. destruct k; exact Gone.
      + intros ->. cbn [set_collection set_artists albums]. exact (U eq_refl). }
  destruct G as [G U'].
  split; [exact (proj1 (get_one_missing k db' id V G)) |].
  exact (delete_absent e' A' V U' G).
Qed.

(** Deleting has no cascade: after DELETE /albums/:id the songs of the
    album are still there, and GET /songs/album/:albumId answers as
    before. *)
Theorem delete_album_keeps_songs e db id albumId :
  songs (snd (Albums.delete e db id)) = songs db /\
  fst (Songs.by_album (snd (Albums.delete e db id)) albumId)
  = fst (Songs.by_album db albumId).
Proof.
  assert (S : songs (snd (Albums.delete e db id)) = songs db).
  { unfold Albums.delete, requireAuth.
    destruct (isDemoMode e); [| destruct (negb (has_user e)); [reflexivity |]];
      repeat (case_cond; cbn [run snd]; try reflexivity). }
  split; [exact S |].
  unfold Songs.by_album, run_read. rewrite S.
  repeat (case_cond; cbn [fst]; try reflexivity).
Qed.
End DeleteShape.

Lemma delete_removes_first_witness :
  exists l1 l2,
    collection_of Song library = l1 ++ song_doc idS "S" idT idA 1 :: l2 /\
    findById l1 (ObjectId_new (JStr idS)) = None /\
    status (fst (delete Song (sample_env id5) library idS)) = 200 /\
    snd (delete Song (sample_env id5) library idS) = set_collection Song library (l1 ++ l2).
Proof.
  exact (@delete_removes_first frag_host Song (sample_env id5) library idS
           eq_refl eq_refl (fun E => match E with end)).
Defined.

Lemma NoDup_by_nodup (l : list string) :
  List.length (nodup string_dec l) = List.length l -> NoDup l.
Proof.
  induction l as [| x l IH]; cbn [nodup]; intros E; [constructor |].
  destruct (in_dec string_dec x l) as [I | N].
  - exfalso.
    assert (Hle : (List.length (nodup string_dec l) <= List.length l)%nat).
    { clear. induction l as [| y l IH]; cbn [nodup]; [apply le_n |].
      destruct (in_dec string_dec y l); cbn [List.length]; lia. }
    cbn [List.length] in E. lia.
  - constructor; [exact N |]. apply IH. cbn [List.length] in E. lia.
Qed.

Lemma delete_then_gone_witness :
  let db' := snd (delete Playlist (sample_env id5) library idP) in
  status (fst (get_one Playlist db' idP)) = 404 /\
  status (fst (delete Playlist (sample_env id4) db' idP)) = 404 /\
  snd (delete Playlist (sample_env id4) db' idP) = db'.
Proof.
  apply (@delete_then_gone frag_host Playlist (sample_env id5) (sample_env id4) library idP).
  - reflexivity.
  - reflexivity.
  - reflexivity.
  - intros E. discriminate E.
  - apply NoDup_by_nodup. reflexivity.
Defined.

(** ** Updating a record *)



Ltac unchanged :=
  repeat (case_cond; cbn [run snd fst]; try reflexivity);
  try (intros N; exfalso; apply N; reflexivity).

Section UpdateShape.
Context {H : Host}.




(** A write request that is not answered with its success status (201
    for a create, 204 for an update, 200 for the others) has changed
    nothing in the database. *)
Theorem refused_write_changes_nothing e db w :
  status (fst (handle e db w)) <> success_status w ->
  snd (handle e db w) = db.
Proof.
  destruct w as [k b | k id b | k id | id songId | id songId];
    cbn [handle success_status].
  - apply create_writes_only_on_201.
  - destruct k; cbn [update];
      unfold Artists.update, Albums.update, Songs.update, Playlists.update, requireAuth;
      (destruct (isDemoMode e); [| destruct (negb (has_user e)); [reflexivity |]]).
    1,2: case_cond; cbn [run snd fst]; [reflexivity |];
         destruct (Artists.validateArtist _ _); cbn [bind run snd]; try reflexivity;
         unchanged.
    1,2: unchanged.
    1,2: unchanged.
    1,2: case_cond; cbn [run snd fst]; [reflexivity |];
         destruct (Playlists.validatePlaylist _); cbn [bind run snd]; try reflexivity;
         case_cond; cbn [run snd fst]; try reflexivity;
         destruct (check_songs_exist_cases db (Playlists.sanitize b)) as [-> | ->];
         cbn [bind run snd fst]; try reflexivity; unchanged.
  - destruct k; cbn [delete];
      unfold Artists.delete, Albums.delete, Songs.delete, Playlists.delete, requireAuth;
      (destruct (isDemoMode e); [| destruct (negb (has_user e)); [reflexivity |]]);
      unchanged.
  - unfold Playlists.add_song, requireAuth;
      (destruct (isDemoMode e); [| destruct (negb (has_user e)); [reflexivity |]]).
    1,2: repeat (case_cond; cbn [run snd fst]; try reflexivity);
         destruct (findById (playlists db) _) as [pl |]; cbn [bind run snd fst];
         try reflexivity;
         destruct (Playlists.already_in _ _); cbn [bind run snd fst]; try reflexivity;
         unchanged.
  - unfold Playlists.remove_song, requireAuth;
      (destruct (isDemoMode e); [| destruct (negb (has_user e)); [reflexivity |]]);
      unchanged.
Qed.
End UpdateShape.


Lemma refused_write_changes_nothing_witness :
  snd (handle (sample_env id5) library (AddSong idP idS)) = library.
Proof.
  apply (@refused_write_changes_nothing frag_host (sample_env id5) library (AddSong idP idS)).
  vm_compute. discriminate.
Defined.

(** ** The pages of a listing *)



Section SortPermutes.
Context {H : Host}.

Lemma insert_sorted_perm field order d l :
  Permutation (insert_sorted field order d l) (d :: l).
Proof.
  induction l as [| x l IH]; cbn [insert_sorted]; [reflexivity |].
  destruct (before field order x d); [| reflexivity].
  rewrite IH. apply perm_swap.
Qed.

Lemma sort_docs_perm s l : Permutation (sort_docs s l) l.
Proof.
  destruct s as [[field order] |]; cbn [sort_docs]; [| reflexivity].
  assert (G : forall acc,
             Permutation (fold_left (fun acc d => insert_sorted field order d acc) l acc)
                         (l ++ acc)).
  { induction l as [| x l IH]; intros acc; cbn [fold_left app]; [reflexivity |].
    rewrite IH, insert_sorted_perm. symmetry. apply Permutation_middle. }
  rewrite G, app_nil_r. reflexivity.
Qed.
End SortPermutes.

Section PageItems.
Context {H : Host}.
Variables (key : string) (c : collection) (sortable : list string).
Variable f : filter.

Lemma paginate_items q p limit :
  parseInt_or (get "limit" q) 10 = limit -> 1 <= limit <= 100 -> 1 <= p ->
  exists r,
    paginate key c sortable (at_page q p) f = Next r /\
    page_items key r =
    map doc_json
        (firstn (Z.to_nat limit)
                (skipn (Z.to_nat ((p - 1) * limit))
                       (sort_docs (sort_option sortable q) (find c f)))).
Proof.
  intros El Hl Hp. unfold paginate, at_page.
  change (get "limit" (("page", JNum p) :: q)) with (get "limit" q).
  change (get "sortBy" (("page", JNum p) :: q)) with (get "sortBy" q).
  change (get "sortOrder" (("page", JNum p) :: q)) with (get "sortOrder" q).
  change (get "page" (("page", JNum p) :: q)) with (JNum p).
  rewrite El.
  assert (Ep : parseInt_or (JNum p) 1 = p).
  { unfold parseInt_or; simpl. destruct (Z.eqb_spec p 0); lia. }
  rewrite Ep.
  replace (limit >? 100) with false by (symmetry; rewrite Z.gtb_ltb; apply Z.ltb_ge; lia).
  cbn [reply_if bind]. unfold find_page.
  replace ((p - 1) * limit <? 0) with false by (symmetry; apply Z.ltb_ge; nia).
  replace (limit =? 0) with false by (symmetry; apply Z.eqb_neq; lia).
  cbn [await bind]. eexists. split; [reflexivity |].
  unfold page_items, body_field, json; cbn [body].
  rewrite get_head.
  replace (Z.abs limit) with limit by lia. reflexivity.
Qed.
End PageItems.

Section ListingPages.
Context {H : Host}.

Lemma listing_page_items k db q f limit p :
  build_query_of k q = Next f ->
  parseInt_or (get "limit" q) 10 = limit -> 1 <= limit <= 100 -> 1 <= p ->
  page_items (key_of k) (fst (listing k db (at_page q p))) =
  map doc_json
      (firstn (Z.to_nat limit)
              (skipn (Z.to_nat ((p - 1) * limit))
                     (sort_docs (sort_option (sortable_of k) q)
                                (find (collection_of k db) f)))).
Proof.
  intros Eb El Hl Hp.
  pose proof (build_query_ignores_page k q p) as Ei. rewrite Eb in Ei.
  destruct (@paginate_items _ (key_of k) (collection_of k db) (sortable_of k) f
                            q p limit El Hl Hp) as (r & Er & Hr).
  rewrite <- Hr.
  destruct k; cbn [listing build_query_of key_of collection_of sortable_of] in *;
    unfold Artists.listing, Albums.listing, Songs.listing, Playlists.listing, run_read;
    rewrite Ei; cbn [bind]; rewrite Er; reflexivity.
Qed.

End ListingPages.


(** ** Query parameters that a listing ignores *)

Section IgnoredParameters.
Context {H : Host}.

Lemma paginate_unsorted key c sortable q f :
  existsb (String.eqb (toString (get "sortBy" q))) sortable = false ->
  paginate key c sortable q f = paginate key c sortable (without "sortBy" q) f.
Proof.
  intros Hs. unfold paginate. rewrite !get_without.
  change (("page" =? "sortBy")%string) with false.
  change (("limit" =? "sortBy")%string) with false.
  change (("sortBy" =? "sortBy")%string) with true.
  change (("sortOrder" =? "sortBy")%string) with false.
  cbn iota. change (truthy JUndefined) with false.
  destruct (get "sortBy" q) as [| | | | | s | |]; try reflexivity;
    try (destruct (truthy _); reflexivity).
  cbn [toString] in Hs. rewrite Hs. destruct (truthy (JStr s)); reflexivity.
Qed.

(** A [sortBy] parameter that does not name a sortable field of the
    collection is ignored: the listing answers as it does without the
    parameter, in the natural order of the collection. *)
Theorem listing_ignores_unknown_sort k db q :
  existsb (String.eqb (toString (get "sortBy" q))) (sortable_of k) = false ->
  listing k db q = listing k db (without "sortBy" q).
Proof.
  intros Hs.
  assert (Eb : build_query_of k (without "sortBy" q) = build_query_of k q).
  { destruct k; cbn [build_query_of];
      unfold Artists.build_query, Albums.build_query, Songs.build_query,
             Playlists.build_query;
      rewrite !get_without; reflexivity. }
  destruct k; cbn [listing sortable_of build_query_of] in *;
    unfold Artists.listing, Albums.listing, Songs.listing, Playlists.listing, run_read;
    rewrite Eb;
    [ destruct (Artists.build_query q) | destruct (Albums.build_query q)
    | destruct (Songs.build_query q) | destruct (Playlists.build_query q) ];
    cbn [bind]; try reflexivity;
    rewrite (paginate_unsorted _ _ _ _ _ Hs); reflexivity.
Qed.

Lemma id_filter_malformed field v :
  ObjectId_isValid v = false -> id_filter field v = [].
Proof. intros E. unfold id_filter. rewrite E, andb_false_r. reflexivity. Qed.

(** An [artist_id] or [album_id] query parameter that is not a
    well-formed identifier is ignored: the listing answers as it does
    without the parameter, and does not refuse the request. *)
Theorem listing_ignores_malformed_id k db q param :
  param = "artist_id" \/ param = "album_id" ->
  ObjectId_isValid (get param q) = false ->
  listing k db q = listing k db (without param q).
Proof.
  intros P V.
  assert (Ep : forall key c sortable f,
             paginate key c sortable (without param q) f = paginate key c sortable q f).
  { intros key c sortable f. unfold paginate. rewrite !get_without.
    destruct P as [-> | ->]; reflexivity. }
  assert (Eb : build_query_of k (without param q) = build_query_of k q).
  { destruct k; cbn [build_query_of];
      unfold Artists.build_query, Albums.build_query, Songs.build_query,
             Playlists.build_query;
      rewrite !get_without;
      destruct P as [-> | ->];
      rewrite ?(@id_filter_malformed "artist_id" _ V);
      rewrite ?(@id_filter_malformed "album_id" _ V);
      reflexivity. }
  destruct k; cbn [listing build_query_of] in *;
    unfold Artists.listing, Albums.listing, Songs.listing, Playlists.listing, run_read;
    rewrite Eb;
    [ destruct (Artists.build_query q) | destruct (Albums.build_query q)
    | destruct (Songs.build_query q) | destruct (Playlists.build_query q) ];
    cbn [bind]; try reflexivity;
    rewrite Ep; reflexivity.
Qed.
End IgnoredParameters.

Lemma listing_ignores_unknown_sort_witness :
  listing Artist library [("sortBy", JStr "members"); ("sortOrder", JStr "desc")]
  = listing Artist library [("sortOrder", JStr "desc")].
Proof.
  apply (@listing_ignores_unknown_sort frag_host Artist library
           [("sortBy", JStr "members"); ("sortOrder", JStr "desc")]).
  reflexivity.
Defined.

Lemma listing_ignores_malformed_id_witness :
  listing Song library [("album_id", JStr "none")]
  = listing Song library [].
Proof.
  apply (@listing_ignores_malformed_id frag_host Song library
           [("album_id", JStr "none")] "album_id").
  - right. reflexivity.
  - reflexivity.
Defined.

(** ** The songs of an album, in track order *)

Section TrackOrder.
Context {H : Host}.
Variables (field : string) (order : Z).
Hypothesis before_total :
  forall a b, before field order a b = false -> before field order b a = true.

Lemma insert_sorted_hd d l x :
  before field order x d = true ->
  HdRel (fun a b => before field order a b = true) x l ->
  HdRel (fun a b => before field order a b = true) x (insert_sorted field order d l).
Proof.
  intros Hx Hl. destruct l as [| y l]; cbn [insert_sorted].
  - constructor. exact Hx.
  - inversion Hl; subst. destruct (before field order y d); constructor; assumption.
Qed.

Lemma insert_sorted_sorted d l :
  Sorted (fun a b => before field order a b = true) l ->
  Sorted (fun a b => before field order a b = true) (insert_sorted field order d l).
Proof.
  induction l as [| x l IH]; intros S; cbn [insert_sorted].
  - repeat constructor.
  - inversion S as [| ? ? S' Hd]; subst.
    destruct (before field order x d) eqn:E.
    + constructor; [exact (IH S') |]. apply insert_sorted_hd; assumption.
    + constructor; [exact S |]. constructor. apply before_total. exact E.
Qed.

Lemma sort_docs_sorted l :
  Sorted (fun a b => before field order a b = true)
         (sort_docs (Some (field, order)) l).
Proof.
  cbn [sort_docs].
  assert (G : forall acc,
             Sorted (fun a b => before field order a b = true) acc ->
             Sorted (fun a b => before field order a b = true)
                    (fold_left (fun acc d => insert_sorted field order d acc) l acc)).
  { induction l as [| x l IH]; intros acc S; cbn [fold_left]; [exact S |].
    apply IH. apply insert_sorted_sorted. exact S. }
  apply G. constructor.
Qed.
End TrackOrder.

Section SongsOfAlbum.
Context {H : Host}.

(** GET /songs/album/:albumId with a well-formed identifier is always
    answered 200, whether or not the album exists; the array it carries
    holds exactly the songs whose [album_id] is the identifier string,
    each once, and goes up in [track_number] with respect to the store's
    comparison, provided that comparison never puts two values each
    after the other. *)
Theorem songs_by_album_in_track_order db albumId :
  (forall a b, bson_compare a b = Gt -> bson_compare b a <> Gt) ->
  ObjectId_isValid (JStr albumId) = true ->
  exists docs,
    Songs.by_album db albumId
    = ({| status := 200; body := JArr (map doc_json docs) |}, db) /\
    Permutation docs (find (songs db) [("album_id", Equals (JStr albumId))]) /\
    Sorted (fun a b =>
              bson_compare (get "track_number" (doc_fields a))
                           (get "track_number" (doc_fields b)) <> Gt) docs.
Proof.
  intros Anti V.
  exists (sort_docs (Some ("track_number", 1))
                    (find (songs db) [("album_id", Equals (JStr albumId))])).
  split; [| split].
  - unfold Songs.by_album, run_read. rewrite V. reflexivity.
  - apply sort_docs_perm.
  - assert (T : forall a b, before "track_number" 1 a b = false ->
                            before "track_number" 1 b a = true).
    { unfold before. intros a b.
      destruct (bson_compare (get "track_number" (doc_fields a))
                             (get "track_number" (doc_fields b))) eqn:E;
        try discriminate.
      intros _. pose proof (Anti _ _ E) as N.
      destruct (bson_compare (get "track_number" (doc_fields b))
                             (get "track_number" (doc_fields a)));
        [reflexivity | reflexivity | contradiction]. }
    pose proof (@sort_docs_sorted H "track_number" 1 T
                  (find (songs db) [("album_id", Equals (JStr albumId))])) as S.
    eapply Sorted_ind with (P := fun l => Sorted _ l); [constructor | | exact S].
    intros a l _ IH Hd. constructor; [exact IH |].
    destruct Hd as [| b l' Hb]; constructor.
    unfold before in Hb.
    destruct (bson_compare (get "track_number" (doc_fields a))
                           (get "track_number" (doc_fields b)));
      [discriminate | discriminate | discriminate Hb].
Qed.
End SongsOfAlbum.

Lemma compare_values_antisymmetric a b :
  Frag.compare_values a b = Gt -> Frag.compare_values b a <> Gt.
Proof.
  intros E N.
  assert (Z_anti : forall x y, (x ?= y) = Gt -> (y ?= x) = Gt -> False).
  { intros x y Hx Hy. apply Z.compare_gt_iff in Hx. apply Z.compare_gt_iff in Hy. lia. }
  destruct a, b; cbn [Frag.compare_values Frag.rank] in E, N;
    try discriminate; try (exact (Z_anti _ _ E N)).
  - destruct b, b0; discriminate.
  - rewrite String.compare_antisym, E in N. discriminate.
Qed.

Lemma songs_by_album_in_track_order_witness :
  exists docs,
    Songs.by_album (set_songs library (rev (songs library))) idT
    = ({| status := 200; body := JArr (map doc_json docs) |},
       set_songs library (rev (songs library))) /\
    Permutation docs (find (rev (songs library)) [("album_id", Equals (JStr idT))]) /\
    Sorted (fun a b =>
              Frag.compare_values (get "track_number" (doc_fields a))
                                  (get "track_number" (doc_fields b)) <> Gt) docs.
Proof.
  exact (@songs_by_album_in_track_order frag_host
           (set_songs library (rev (songs library))) idT
           compare_values_antisymmetric eq_refl).
Defined.

(** ** The duplicate check of the validators *)

Lemma indexOf_absent x l : ~ In x l -> indexOf x l = -1.
Proof.
  induction l as [| y l IH]; cbn [indexOf In]; intros N; [reflexivity |].
  destruct (String.eqb_spec x y) as [-> | Ne]; [exfalso; apply N; left; reflexivity |].
  rewrite IH by (intros I; apply N; right; exact I). reflexivity.
Qed.

Lemma indexOf_first pre x r :
  ~ In x pre -> indexOf x (pre ++ x :: r) = Z.of_nat (List.length pre).
Proof.
  induction pre as [| y pre IH]; cbn [indexOf app In List.length]; intros N.
  - rewrite String.eqb_refl. reflexivity.
  - destruct (String.eqb_spec x y) as [-> | Ne]; [exfalso; apply N; left; reflexivity |].
    rewrite IH by (intros I; apply N; right; exact I).
    destruct (Z.ltb_spec (Z.of_nat (List.length pre)) 0); lia.
Qed.

Lemma indexOf_earlier pre x r :
  In x pre -> 0 <= indexOf x (pre ++ r) < Z.of_nat (List.length pre).
Proof.
  induction pre as [| y pre IH]; cbn [indexOf app In List.length]; intros I; [contradiction |].
  destruct (String.eqb_spec x y) as [-> | Ne]; [lia |].
  destruct I as [E | I]; [congruence |].
  specialize (IH I).
  destruct (Z.ltb_spec (indexOf x (pre ++ r)) 0); lia.
Qed.

Lemma filter_index_duplicates names l pre :
  names = pre ++ l ->
  filter_index (fun item index => negb (indexOf item names =? index))
               (Z.of_nat (List.length pre)) l = []
  <-> NoDup l /\ (forall x, In x l -> ~ In x pre).
Proof.
  revert pre. induction l as [| x l IH]; intros pre E; cbn [filter_index].
  - split; [intros _; split; [constructor | intros x []] | reflexivity].
  - destruct (in_dec string_dec x pre) as [I | N].
    + pose proof (@indexOf_earlier pre x (x :: l) I) as B. rewrite <- E in B.
      replace (indexOf x names =? Z.of_nat (List.length pre)) with false
        by (symmetry; apply Z.eqb_neq; lia).
      cbn [negb]. split; [discriminate |].
      intros [_ A]. exfalso. exact (A x (or_introl eq_refl) I).
    + rewrite E at 1. rewrite (@indexOf_first pre x l N), Z.eqb_refl. cbn [negb].
      replace (Z.of_nat (List.length pre) + 1)
        with (Z.of_nat (List.length (pre ++ [x])))
        by (rewrite length_app; cbn [List.length]; lia).
      rewrite (IH (pre ++ [x])) by (rewrite <- app_assoc; exact E).
      split.
      * intros [Nd A]. split.
        -- constructor; [| exact Nd].
           intros I. apply (A x I). apply in_or_app. right. left. reflexivity.
        -- intros y [<- | Iy]; [exact N |].
           intros Ip. apply (A y Iy). apply in_or_app. left. exact Ip.
      * intros [Nd A]. inversion Nd as [| ? ? Nx Nd']; subst. split; [exact Nd' |].
        intros y Iy Ip. apply in_app_or in Ip as [Ip | [<- | []]].
        -- exact (A y (or_intror Iy) Ip).
        -- exact (Nx Iy).
Qed.

(** [names.filter((item, index) => names.indexOf(item) !== index)] is
    empty exactly when no name occurs twice. *)
Lemma duplicates_none names : duplicates names = [] <-> NoDup names.
Proof.
  unfold duplicates.
  rewrite (@filter_index_duplicates names names [] eq_refl).
  split; [intros [Nd _]; exact Nd | intros Nd; split; [exact Nd | intros x _ []]].
Qed.

Lemma each_entry_prefix what too_long max i l m :
  In m (each_entry what too_long max i l) -> exists rest, m = cat what rest.
Proof.
  revert i. induction l as [| v l IH]; intros i; cbn [each_entry]; [intros [] |].
  intros I. apply in_app_or in I as [I | I]; [| exact (IH _ I)].
  unfold required_string in I.
  destruct v; cbn [In] in I;
    try (destruct I as [<- | []]; eexists; reflexivity).
  destruct (negb _ || _); [destruct I as [<- | []]; eexists; reflexivity |].
  destruct (_ >? _); [destruct I as [<- | []]; eexists; reflexivity | destruct I].
Qed.

Lemma map_step_member_strings l :
  map_step Artists.member_name (map JStr l)
  = Next (map (fun s => toLowerCase (trim s)) l).
Proof.
  induction l as [| s l IH]; cbn [map map_step Artists.member_name bind]; [reflexivity |].
  rewrite IH. reflexivity.
Qed.

Ltac elsewhere :=
  unfold required_string, optional_string, optional_url;
  repeat match goal with
         | |- context [if ?c then _ else _] => destruct c
         | |- context [match ?v with _ => _ end] => destruct v
         end;
  cbn [In cat append]; intuition discriminate.

Section DuplicateReports.
Context {H : Host}.

(** When the members of an artist are strings of ASCII characters,
    [validateArtist] reports "Duplicate member names are not allowed"
    exactly when two of them are the same name after trimming and
    lower-casing. *)
Theorem validateArtist_reports_duplicates year a l :
  Artists.members a = JArr (map JStr l) -> l <> [] ->
  Forall (fun s => ascii_string s = true) l ->
  exists errs,
    Artists.validateArtist year a = Next errs /\
    (In "Duplicate member names are not allowed" errs <->
     ~ NoDup (map (fun s => toLowerCase (trim s)) l)).
Proof.
  intros Em Hl _. unfold Artists.validateArtist, Artists.members_errors.
  rewrite Em.
  destruct l as [| s l]; [contradiction |].
  change (map JStr (s :: l)) with (JStr s :: map JStr l).
  change (JStr s :: map JStr l) with (map JStr (s :: l)).
  rewrite map_step_member_strings.
  assert (Ec : match map JStr (s :: l) with
               | [] => Next ["At least one member is required"]
               | _ :: _ =>
                   bind (Next (map (fun s => toLowerCase (trim s)) (s :: l)))
                        (fun memberNames =>
                           Next (each_entry "Member "
                                   " name must be less than 100 characters" 100 0
                                   (map JStr (s :: l)) ++
                                 (if nonempty (duplicates memberNames)
                                  then ["Duplicate member names are not allowed"]
                                  else [])))
               end
               = Next (each_entry "Member " " name must be less than 100 characters"
                         100 0 (map JStr (s :: l)) ++
                       (if nonempty (duplicates
                                       (map (fun s => toLowerCase (trim s)) (s :: l)))
                        then ["Duplicate member names are not allowed"] else [])))
    by reflexivity.
  rewrite Ec. cbn [bind]. eexists. split; [reflexivity |].
  pose proof (duplicates_none (map (fun s => toLowerCase (trim s)) (s :: l))) as D.
  rewrite !in_app_iff.
  split.
  - intros [I | [I | [I | [I | [[I | I] | [I | [I | I]]]]]]].
    + exfalso. revert I. elsewhere.
    + exfalso. revert I. elsewhere.
    + exfalso. revert I. elsewhere.
    + exfalso. revert I. elsewhere.
    + exfalso. apply each_entry_prefix in I as (rest & E). discriminate E.
    + intros Nd. apply D in Nd. rewrite Nd in I. destruct I.
    + exfalso. revert I. elsewhere.
    + exfalso. revert I. elsewhere.
    + exfalso. revert I. elsewhere.
  - intros Nd. do 4 right. left. right.
    destruct (duplicates (map (fun s => toLowerCase (trim s)) (s :: l))) eqn:Ed.
    + exfalso. apply Nd. apply D. reflexivity.
    + left. reflexivity.
Qed.
End DuplicateReports.

Lemma validateArtist_reports_duplicates_witness :
  exists errs,
    Artists.validateArtist 2023 (Artists.sanitize
      [("name", JStr "A"); ("members", JArr [JStr "Ann"; JStr " ann "])]) = Next errs /\
    (In "Duplicate member names are not allowed" errs <->
     ~ NoDup (map (fun s => toLowerCase (trim s)) ["Ann"; "ann"])).
Proof.
  apply (@validateArtist_reports_duplicates frag_host 2023
           (Artists.sanitize
              [("name", JStr "A"); ("members", JArr [JStr "Ann"; JStr " ann "])])
           ["Ann"; "ann"]).
  - reflexivity.
  - discriminate.
  - repeat constructor.
Defined.

(** ** What validation lets into the store *)

Lemma required_count_none n max missing too_big :
  required_count n max missing too_big = [] ->
  exists z, n = Int z /\ 1 <= z <= max.
Proof.
  unfold required_count, below_one, above.
  destruct n as [z |]; [| discriminate].
  destruct (Z.eqb_spec z 0); cbn [orb]; [discriminate |].
  destruct (Z.ltb_spec z 1); [discriminate |].
  rewrite Z.gtb_ltb. destruct (Z.ltb_spec max z); [discriminate |].
  intros _. exists z. split; [reflexivity | lia].
Qed.

Lemma nonempty_false {A : Type} (l : list A) : nonempty l = false -> l = [].
Proof. destruct l; [reflexivity | discriminate]. Qed.

Section StoredNumbers.
Context {H : Host}.

Lemma created_artist_valid e db b :
  status (fst (Artists.create e db b)) = 201 ->
  Artists.validateArtist (current_year e) (Artists.sanitize b) = Next [].
Proof.
  unfold Artists.create, requireAuth;
    (destruct (isDemoMode e); [| destruct (negb (has_user e)); [cbn; discriminate |]]).
  1,2: destruct (Artists.validateArtist _ _) eqn:V; cbn [bind run fst];
       [ | exfalso; exact (validateArtist_never_replies _ _ V) | discriminate ];
       case_cond; cbn [run fst]; [discriminate |];
       intros _; f_equal; apply nonempty_false; assumption.
Qed.

Lemma created_album_valid e db b :
  status (fst (Albums.create e db b)) = 201 ->
  Albums.validateAlbum (now e) (Albums.sanitize b) = [].
Proof.
  unfold Albums.create, requireAuth;
    (destruct (isDemoMode e); [| destruct (negb (has_user e)); [cbn; discriminate |]]).
  1,2: case_cond; cbn [run fst]; [discriminate |];
       intros _; apply nonempty_false; assumption.
Qed.

Lemma created_song_valid e db b :
  status (fst (Songs.create e db b)) = 201 ->
  Songs.validateSong (Songs.sanitize b) = [].
Proof.
  unfold Songs.create, requireAuth;
    (destruct (isDemoMode e); [| destruct (negb (has_user e)); [cbn; discriminate |]]).
  1,2: case_cond; cbn [run fst]; [discriminate |];
       intros _; apply nonempty_false; assumption.
Qed.

(** The numbers of a record that POST has stored are within the bounds
    of its validator: an artist's [formed_year] is between 1900 and the
    current year; an album's [track_count] is between 1 and 200 and its
    [duration] between 1 and 600; a song's [duration] is between 1 and
    3600 and its [track_number] is [null], NaN, zero or between 1 and
    200. *)
Theorem stored_numbers_within_bounds e db b :
  (status (fst (create Artist e db b)) = 201 ->
   exists y, get "formed_year" (stored_fields Artist e b) = JNum y /\
             1900 <= y <= current_year e) /\
  (status (fst (create Album e db b)) = 201 ->
   exists tc du,
     get "track_count" (stored_fields Album e b) = JNum tc /\ 1 <= tc <= 200 /\
     get "duration" (stored_fields Album e b) = JNum du /\ 1 <= du <= 600) /\
  (status (fst (create Song e db b)) = 201 ->
   (exists du, get "duration" (stored_fields Song e b) = JNum du /\ 1 <= du <= 3600) /\
   (get "track_number" (stored_fields Song e b) = JNull \/
    get "track_number" (stored_fields Song e b) = JNaN \/
    exists n, get "track_number" (stored_fields Song e b) = JNum n /\ 0 <= n <= 200)).
Proof.
  split; [| split]; cbn [create]; intros St.
  - apply created_artist_valid in St. unfold Artists.validateArtist in St.
    destruct (Artists.members_errors _); cbn [bind] in St; try discriminate.
    injection St as St.
    do 3 (apply app_eq_nil in St as [_ St]).
    apply app_eq_nil in St as [St _].
    assert (St' : Artists.bad_formed_year (current_year e)
                    (Artists.formed_year (Artists.sanitize b)) = false).
    { destruct (Artists.bad_formed_year _ _); [discriminate St | reflexivity]. }
    clear St. unfold stored_fields, Artists.fields_of.
    cbn [get app String.eqb Ascii.eqb Bool.eqb].
    unfold Artists.bad_formed_year in St'.
    destruct (Artists.formed_year (Artists.sanitize b)) as [z |]; [| discriminate].
    apply orb_false_elim in St' as [St' Hgt]. apply orb_false_elim in St' as [_ Hlt].
    exists z. split; [reflexivity |].
    apply Z.ltb_ge in Hlt. rewrite Z.gtb_ltb in Hgt. apply Z.ltb_ge in Hgt. lia.
  - apply created_album_valid in St. unfold Albums.validateAlbum in St.
    do 4 (apply app_eq_nil in St as [_ St]).
    apply app_eq_nil in St as [Tc St]. apply app_eq_nil in St as [Du _].
    apply required_count_none in Tc as (tc & Etc & Htc).
    apply required_count_none in Du as (du & Edu & Hdu).
    exists tc, du. unfold stored_fields, Albums.fields_of.
    cbn [get app String.eqb Ascii.eqb Bool.eqb]. rewrite Etc, Edu.
    repeat split; lia.
  - apply created_song_valid in St. unfold Songs.validateSong in St.
    do 3 (apply app_eq_nil in St as [_ St]).
    apply app_eq_nil in St as [Du St]. apply app_eq_nil in St as [Tn _].
    apply required_count_none in Du as (du & Edu & Hdu).
    unfold stored_fields, Songs.fields_of.
    cbn [get app String.eqb Ascii.eqb Bool.eqb]. rewrite Edu. split.
    + exists du. split; [reflexivity | lia].
    + unfold Songs.track_number_errors, Songs.nan_or_below_one in Tn.
      destruct (Songs.track_number (Songs.sanitize b)) as [[n |] |];
        cbn [Songs.track_value num_value truthy andb above] in *;
        [| right; left; reflexivity | left; reflexivity].
      right. right. exists n. split; [reflexivity |].
      destruct (Z.eqb_spec n 0); cbn [negb andb] in Tn; [lia |].
      destruct (Z.ltb_spec n 1); [discriminate |].
      rewrite Z.gtb_ltb in Tn. destruct (Z.ltb_spec 200 n); [discriminate | lia].
Qed.
End StoredNumbers.

Lemma stored_numbers_within_bounds_witness :
  exists tc du,
    get "track_count" (stored_fields Album (sample_env id5) (album_body "New" idA))
    = JNum tc /\ 1 <= tc <= 200 /\
    get "duration" (stored_fields Album (sample_env id5) (album_body "New" idA))
    = JNum du /\ 1 <= du <= 600.
Proof.
  exact (proj1 (proj2 (@stored_numbers_within_bounds frag_host (sample_env id5) library
                         (album_body "New" idA))) eq_refl).
Defined.

(** ** Adding a song to a playlist and taking it out again *)

Lemma push_then_stamp x t o l :
  get "songs" o = JArr l ->
  exists fs,
    and_then (op_push "songs" (JStr x) o) (op_set [("updatedAt", bson_date t)]) = Some fs /\
    get "songs" fs = JArr (l ++ [JStr x]).
Proof.
  intros E. unfold op_push. rewrite E. cbn [and_then op_set].
  eexists. split; [reflexivity |].
  unfold set_fields. cbn [fold_left fst snd].
  rewrite get_set_field_other by reflexivity. apply get_set_field_same.
Qed.

Lemma pulled_appended x l :
  existsb (scalar_eqb (JStr x)) l = false -> pulled x (l ++ [JStr x]) = l.
Proof.
  intros N. unfold pulled. rewrite filter_app.
  assert (E : List.filter (fun e => negb (scalar_eqb (JStr x) e)) l = l).
  { induction l as [| y l IH]; cbn [List.filter existsb] in *; [reflexivity |].
    apply orb_false_elim in N as [Ny Nl]. rewrite Ny. cbn [negb].
    rewrite (IH Nl). reflexivity. }
  rewrite E. cbn [List.filter scalar_eqb]. rewrite String.eqb_refl.
  cbn [negb]. apply app_nil_r.
Qed.

Lemma add_song_appends e db id songId p l :
  authorized e = true ->
  ObjectId_isValid (JStr id) = true -> ObjectId_isValid (JStr songId) = true ->
  resolves (songs db) (JStr songId) = true ->
  findById (playlists db) (ObjectId_new (JStr id)) = Some p ->
  get "songs" (doc_fields p) = JArr l ->
  existsb (scalar_eqb (JStr songId)) l = false ->
  status (fst (Playlists.add_song e db id songId)) = 200 /\
  songs (snd (Playlists.add_song e db id songId)) = songs db /\
  exists p',
    findById (playlists (snd (Playlists.add_song e db id songId)))
             (ObjectId_new (JStr id)) = Some p' /\
    get "songs" (doc_fields p') = JArr (l ++ [JStr songId]).
Proof.
  intros A V1 V2 R F S N. unfold Playlists.add_song. unfold resolves in R.
  rewrite authorized_requireAuth by assumption.
  rewrite V1, V2. cbn [negb reply_if bind]. rewrite R. cbn [negb reply_if bind].
  rewrite F, S. unfold Playlists.already_in. cbn [truthy negb bind]. rewrite N.
  cbn [reply_if bind].
  destruct (push_then_stamp songId (now e) (doc_fields p) S) as (fs & U & G).
  destruct (@updateOne_found (playlists db) (ObjectId_new (JStr id))
              (fun o => and_then (op_push "songs" (JStr songId) o)
                          (op_set [("updatedAt", bson_date (now e))]))
              p fs F U) as (c' & -> & F').
  cbn [await bind snd fst run status json playlists set_playlists songs].
  split; [reflexivity |]. split; [reflexivity |].
  eexists. split; [exact F' | exact G].
Qed.

(** Adding a song to a playlist that does not hold it puts its identifier
    last in the playlist's [songs]; removing it afterwards gives back the
    list of songs as it was before. *)
Theorem add_then_remove_restores e1 e2 db id songId p l :
  authorized e1 = true -> authorized e2 = true ->
  ObjectId_isValid (JStr id) = true -> ObjectId_isValid (JStr songId) = true ->
  resolves (songs db) (JStr songId) = true ->
  findById (playlists db) (ObjectId_new (JStr id)) = Some p ->
  get "songs" (doc_fields p) = JArr l ->
  existsb (scalar_eqb (JStr songId)) l = false ->
  let added := Playlists.add_song e1 db id songId in
  let removed := Playlists.remove_song e2 (snd added) id songId in
  status (fst added) = 200 /\
  songs_field (snd added) id = Some (JArr (l ++ [JStr songId])) /\
  status (fst removed) = 200 /\
  songs_field (snd removed) id = Some (JArr l).
Proof.
  intros A1 A2 V1 V2 R F S N added removed.
  destruct (@add_song_appends e1 db id songId p l A1 V1 V2 R F S N)
    as (St1 & _ & p1 & F1 & S1).
  fold added in St1, F1.
  destruct (@remove_song_once e2 (snd added) id songId p1 _ A2 V1 V2 F1 S1)
    as (St2 & p2 & F2 & S2).
  fold removed in St2, F2.
  unfold songs_field. rewrite F1, F2. cbn [option_map].
  rewrite S1, S2, (pulled_appended _ _ N). repeat split; assumption.
Qed.

Lemma add_then_remove_restores_witness :
  let added := Playlists.add_song (sample_env id5) library idP idR in
  let removed := Playlists.remove_song (sample_env id5) (snd added) idP idR in
  status (fst added) = 200 /\
  songs_field (snd added) idP = Some (JArr ([JStr idS] ++ [JStr idR])) /\
  status (fst removed) = 200 /\
  songs_field (snd removed) idP = Some (JArr [JStr idS]).
Proof.
  apply (@add_then_remove_restores (sample_env id5) (sample_env id5) library idP idR
           (playlist_doc idP "P" "me" [JStr idS]) [JStr idS]); reflexivity.
Defined.

(** ** The demo mode *)

Section DemoMode.
Context {H : Host}.

(** [mockAuth], which runs before every route, changes the answer to no
    write request: it gives a user only to requests that [requireAuth]
    lets through anyway. *)
Theorem mockAuth_changes_no_answer e db w :
  handle (mockAuth e) db w = handle e db w.
Proof.
  unfold mockAuth.
  destruct (isDemoMode e) eqn:D; cbn [andb]; [| reflexivity].
  destruct (has_user e) eqn:U; cbn [negb]; [reflexivity |].
  destruct w as [k b | k id b | k id | id songId | id songId];
    try destruct k; cbn [handle create update delete];
    unfold Artists.create, Albums.create, Songs.create, Playlists.create,
           Artists.update, Albums.update, Songs.update, Playlists.update,
           Artists.delete, Albums.delete, Songs.delete, Playlists.delete,
           Playlists.add_song, Playlists.remove_song, requireAuth;
    cbn [isDemoMode has_user now current_year fresh_id];
    rewrite D; reflexivity.
Qed.

(** POST /auth/toggle-demo without an [enable] value flips the gate:
    sent once while the demo mode is on, it makes every write request
    of a client without a user end in 401; sent twice, it leaves every
    write request answered as before. *)
Theorem toggle_demo_twice b s e db w :
  get "enable" b = JUndefined \/ get "enable" b = JNull ->
  let once := snd (toggle_demo b s) in
  let twice := snd (toggle_demo b once) in
  handle (in_demo_state twice e) db w = handle (in_demo_state s e) db w /\
  (truthy s = true -> has_user e = false ->
   handle (in_demo_state once e) db w = (unauthorized, db)).
Proof.
  intros E once twice.
  assert (E1 : once = JBool (negb (truthy s))).
  { unfold once, toggle_demo, toggleDemoMode. cbn [snd].
    destruct E as [-> | ->]; reflexivity. }
  assert (E2 : twice = JBool (negb (truthy once))).
  { unfold twice, toggle_demo, toggleDemoMode. cbn [snd].
    destruct E as [-> | ->]; reflexivity. }
  split.
  - unfold in_demo_state. rewrite E2, E1. cbn [truthy].
    rewrite negb_involutive. reflexivity.
  - intros T U. unfold in_demo_state. rewrite E1. cbn [truthy]. rewrite T.
    cbn [negb]. gate_closed T U w.
Qed.
End DemoMode.

Lemma toggle_demo_twice_witness :
  handle (in_demo_state (snd (toggle_demo [] (JBool true)))
            {| now := 0; current_year := 2023; fresh_id := id5;
               isDemoMode := true; has_user := false |})
         library (Delete Song idS)
  = (unauthorized, library).
Proof.
  exact (proj2 (@toggle_demo_twice frag_host [] (JBool true)
                  {| now := 0; current_year := 2023; fresh_id := id5;
                     isDemoMode := true; has_user := false |}
                  library (Delete Song idS) (or_introl eq_refl))
               eq_refl eq_refl).
Defined.

(** ** The records of a parent, read in two ways *)

Section TwoWays.
Context {H : Host}.

Lemma first_page_all k db q f :
  build_query_of k q = Next f ->
  parseInt_or (get "limit" q) 10 = 10 ->
  countDocuments (collection_of k db) f <= 10 ->
  page_items (key_of k) (fst (listing k db (at_page q 1)))
  = map doc_json (sort_docs (sort_option (sortable_of k) q)
                            (find (collection_of k db) f)).
Proof.
  intros Eb El Hc.
  rewrite (@listing_page_items _ k db q f 10 1 Eb El) by lia.
  f_equal. cbn [Z.sub Z.mul Z.to_nat Z.add Z.opp Z.pos_sub skipn].
  apply firstn_all2. rewrite sort_docs_length.
  unfold countDocuments in Hc. lia.
Qed.

(** The reads by parent agree with the filtered listings: as long as at
    most ten records match, GET /albums/artist/:id carries the items of
    the first page of GET /albums?artist_id=:id, GET /songs/artist/:id
    those of GET /songs?artist_id=:id, and GET /songs/album/:id those of
    GET /songs?album_id=:id&sortBy=track_number. *)
Theorem parent_reads_agree_with_listings db id :
  ObjectId_isValid (JStr id) = true ->
  (countDocuments (albums db) [("artist_id", Equals (JStr id))] <= 10 ->
   body_items (fst (Albums.by_artist db id))
   = page_items "albums" (fst (listing Album db (at_page [("artist_id", JStr id)] 1)))) /\
  (countDocuments (songs db) [("artist_id", Equals (JStr id))] <= 10 ->
   body_items (fst (Songs.by_artist db id))
   = page_items "songs" (fst (listing Song db (at_page [("artist_id", JStr id)] 1)))) /\
  (countDocuments (songs db) [("album_id", Equals (JStr id))] <= 10 ->
   body_items (fst (Songs.by_album db id))
   = page_items "songs"
       (fst (listing Song db
               (at_page [("album_id", JStr id); ("sortBy", JStr "track_number")] 1)))).
Proof.
  intros V.
  assert (T : truthy (JStr id) = true).
  { destruct id; [discriminate V | reflexivity]. }
  split; [| split]; intros Hc; symmetry.
  - etransitivity.
    { apply (@first_page_all Album db [("artist_id", JStr id)]
               [("artist_id", Equals (JStr id))]); [| reflexivity | exact Hc].
      cbn. unfold id_filter. rewrite V, T. reflexivity. }
    unfold Albums.by_artist, run_read. rewrite V. reflexivity.
  - etransitivity.
    { apply (@first_page_all Song db [("artist_id", JStr id)]
               [("artist_id", Equals (JStr id))]); [| reflexivity | exact Hc].
      cbn. unfold id_filter. rewrite V, T. reflexivity. }
    unfold Songs.by_artist, run_read. rewrite V. reflexivity.
  - etransitivity.
    { apply (@first_page_all Song db
               [("album_id", JStr id); ("sortBy", JStr "track_number")]
               [("album_id", Equals (JStr id))]); [| reflexivity | exact Hc].
      cbn. unfold id_filter. rewrite V, T. reflexivity. }
    unfold Songs.by_album, run_read. rewrite V. reflexivity.
Qed.
End TwoWays.

Lemma parent_reads_agree_with_listings_witness :
  body_items (fst (Songs.by_album library idT))
  = page_items "songs"
      (fst (listing Song library
              (at_page [("album_id", JStr idT); ("sortBy", JStr "track_number")] 1))).
Proof.
  refine (proj2 (proj2 (@parent_reads_agree_with_listings frag_host library idT _)) _).
  - reflexivity.
  - vm_compute. discriminate.
Defined.

(** ** Where a create can fail *)

Section CreateFailure.
Context {H : Host}.

End CreateFailure.


Lemma songs_of_canonical_witness :
  Playlists.songs_of library idQ
  = ({| status := 200;
        body := JArr (map doc_json
                        (Playlists.defined
                           (map (fun s => findById (songs library) (Some s))
                                [idS; idR]))) |},
     library).
Proof.
  apply (@songs_of_canonical library idQ
           (playlist_doc idQ "Q" "me" [JStr idS; JStr idR]) [idS; idR]).
  - reflexivity.
  - reflexivity.
  - reflexivity.
  - repeat constructor.
Defined.
